(** * Events API: the request handlers of the event controller

    A shallow embedding of the five handlers of the event controller
    ([getEventById], [getLatestEvents], [createEvent], [updateEvent],
    [deleteEvent]), of the connection holder [getDB] of [config/db.js], of
    the routing of [GET /events] and of the global error handler of the
    server file, followed by the properties the specification states about
    them.

    Conventions of the model.
    - The body of a request is [undefined] when no body was parsed (what
      Express 5 leaves in [req.body] for a request without a body), and
      otherwise the object the body parser hands to the handler: a finite
      map from field names to JSON values.  A JSON array as the whole body
      is not modelled.  A query or path parameter is an optional string.
    - A JavaScript number is NaN, one of the two infinities or an integer;
      numbers with a fractional part and the negative zero are not
      modelled.  [parseInt] rounds the numeral it reads to the nearest
      number, as JavaScript does beyond 2^53.  Differences and products of
      integers are taken exactly, as they are in JavaScript while the
      result stays within 2^53; the statements about pages that depend on
      it are made within that bound.
    - Strings are sequences of one-byte code units.
    - The document store is the external collaborator of the specification:
      a collection is the list of its documents in insertion order, with
      unique keys; a document is a finite map from top-level field names to
      stored values, and [$set] replaces top-level fields.  Field names are
      taken as plain names (MongoDB's dotted paths are not interpreted).
      The order the store sorts schedules by is a parameter of the listing.
    - What a handler cannot decide is part of the world it runs in: the
      mode of the process, the connection, whether the store answers, what
      the clock shows at each reading, and the keys the driver generates.
    - The handlers are asynchronous functions that await every store call;
      one request is modelled at a time, as a function from the world
      before to the response and the world after. *)

From Stdlib Require Import ZArith String Ascii List Lia Bool.
From stdpp Require Import base decidable option list strings gmap fin_maps sorting.

Local Open Scope string_scope.
Local Open Scope list_scope.
Local Open Scope Z_scope.

Set Warnings "-register-all".

(** ** JavaScript values *)

(** A JavaScript number: NaN, an integer, or an infinity. *)
Inductive number : Type :=
| NaN
| Int (z : Z)
| Infinity (negative : bool).

(** The values a parsed JSON body is made of.  [undefined] is not a JSON
    value: an absent field is an absent key of the body. *)
Inductive json : Type :=
| JNull
| JBool (b : bool)
| JNum (n : number)
| JStr (s : string)
| JArr (items : list json)
| JObj (fields : list (string * json)).

(** A [Date] object: either a reading of the system clock ([new Date()],
    in milliseconds) or the date built from a client value
    ([new Date(v)]), kept symbolic because date parsing is left to the
    runtime. *)
Inductive date : Type :=
| Clock (t : Z)
| DateOf (v : json).

(** The value of a top-level field of a stored document. *)
Inductive value : Type :=
| VJson (j : json)
| VOid (o : string)
| VDate (d : date).

#[global] Instance number_eqdec : EqDecision number.
Proof. solve_decision. Defined.

#[global] Instance json_eqdec : EqDecision json.
Proof.
  unfold EqDecision, Decision.
  fix IH 1.
  decide equality.
  - apply bool_dec.
  - apply number_eqdec.
  - apply string_dec.
  - apply (List.list_eq_dec IH).
  - apply List.list_eq_dec. decide equality. apply string_dec.
Defined.

#[global] Instance date_eqdec : EqDecision date.
Proof. solve_decision. Defined.

#[global] Instance value_eqdec : EqDecision value.
Proof. solve_decision. Defined.

(** A request body and a stored document. *)
Abbreviation body := (gmap string json).
Abbreviation doc := (gmap string value).

(** JavaScript truthiness of a possibly absent value ([None] is
    [undefined]). *)
Definition truthy (v : option json) : bool :=
  match v with
  | None => false
  | Some JNull => false
  | Some (JBool b) => b
  | Some (JNum NaN) => false
  | Some (JNum (Int z)) => negb (z =? 0)
  | Some (JNum (Infinity _)) => true
  | Some (JStr s) => negb (String.eqb s "")
  | Some (JArr _) => true
  | Some (JObj _) => true
  end.

(** [a || b] on a possibly absent value with a default. *)
Definition or_else (v : option json) (dflt : json) : json :=
  match v with
  | Some j => if truthy v then j else dflt
  | None => dflt
  end.

(** [Array.isArray]. *)
Definition Array_isArray (v : option json) : bool :=
  match v with
  | Some (JArr _) => true
  | _ => false
  end.

(** ** [parseInt(_, 10)] *)

(** White space that [parseInt] skips, among one-byte code units. *)
Definition is_space (c : ascii) : bool :=
  let n := nat_of_ascii c in
  ((9 <=? n) && (n <=? 13) || (n =? 32) || (n =? 160))%nat.

Definition digit_of (c : ascii) : option Z :=
  let n := nat_of_ascii c in
  if ((48 <=? n) && (n <=? 57))%nat then Some (Z.of_nat n - 48) else None.

Fixpoint trim_start (s : string) : string :=
  match s with
  | String c s' => if is_space c then trim_start s' else s
  | EmptyString => s
  end.

(** The longest prefix of decimal digits, read as a numeral; [acc] is the
    value read so far, [None] while no digit was seen. *)
Fixpoint read_digits (acc : option Z) (s : string) : option Z :=
  match s with
  | String c s' =>
      match digit_of c with
      | Some d => read_digits (Some (10 * default 0 acc + d)) s'
      | None => acc
      end
  | EmptyString => acc
  end.

(** The number nearest to an integer, the value JavaScript gives the
    integer as a number: the integer itself below 2^53 in magnitude; from
    there on the nearest multiple of 2^(e-52), where 2^e is the largest
    power of two that does not exceed the magnitude, the even multiple
    when two are equally near; an infinity when that multiple reaches
    2^1024. *)
Definition to_number (z : Z) : number :=
  let a := Z.abs z in
  if a <? 2 ^ 53 then Int z
  else
    let u := 2 ^ (Z.log2 a - 52) in
    let q := a / u in
    let r := a mod u in
    let q' := if 2 * r <? u then q
              else if u <? 2 * r then q + 1
              else if Z.even q then q else q + 1 in
    if 2 ^ 1024 <=? q' * u then Infinity (z <? 0) else Int (Z.sgn z * (q' * u)).

(** [parseInt(s, 10)] on a string: leading white space, a sign, the
    longest run of decimal digits, read exactly and then turned into a
    number. *)
Definition parseInt_string (s : string) : number :=
  let s1 := trim_start s in
  let '(sign, s2) :=
    match s1 with
    | String "-" r => (-1, r)
    | String "+" r => (1, r)
    | _ => (1, s1)
    end in
  match read_digits None s2 with
  | Some z => to_number (sign * z)
  | None => NaN
  end.

(** Decimal numeral of an integer (the digits, most significant first). *)
Fixpoint digits_of_pos (fuel : nat) (n : Z) (tail : string) : string :=
  match fuel with
  | O => tail
  | S fuel' =>
      let tail' := String (ascii_of_nat (Z.to_nat (48 + n mod 10))) tail in
      if n <? 10 then tail' else digits_of_pos fuel' (n / 10) tail'
  end.

Definition Z_to_string (z : Z) : string :=
  if z <? 0 then String "-" (digits_of_pos (S (Z.to_nat (Z.log2 (- z)))) (- z) "")
  else digits_of_pos (S (Z.to_nat (Z.log2 z))) z "".

Definition decimal_length (z : Z) : Z := Z.of_nat (String.length (Z_to_string z)).

(** The shortest decimal [s * 10 ^ p] that is read back as the number [z]
    (positive, of [d] digits): [k] significant digits are tried, starting
    with one, each time with the two decimals that enclose [z]; of two
    that are read back as [z] the nearer to [z] is taken, the even one
    when they are equally near. *)
Fixpoint shortest_decimal (fuel : nat) (k d z : Z) : Z * Z :=
  match fuel with
  | O => (z, 0)
  | S fuel' =>
      let p := d - k in
      let lo := z / 10 ^ p in
      let hi := lo + 1 in
      let reads_back (s : Z) := bool_decide (to_number (s * 10 ^ p) = Int z) in
      match reads_back lo, reads_back hi with
      | true, true =>
          let below := z - lo * 10 ^ p in
          let above := hi * 10 ^ p - z in
          if below <? above then (lo, p)
          else if above <? below then (hi, p)
          else if Z.even lo then (lo, p) else (hi, p)
      | true, false => (lo, p)
      | false, true => (hi, p)
      | false, false => shortest_decimal fuel' (k + 1) d z
      end
  end.

(** [d.ddde+n], the form in which JavaScript prints a number of 10^21 or
    more. *)
Definition exponent_form (s n : Z) : string :=
  match Z_to_string s with
  | String c EmptyString => String c ("e+" +:+ Z_to_string n)
  | String c rest => String c ("." +:+ rest +:+ "e+" +:+ Z_to_string n)
  | EmptyString => EmptyString
  end.

(** [Number.prototype.toString] on an integer: below 2^53 in magnitude its
    decimal numeral; from there on the digits of its shortest decimal,
    followed by zeros when the numeral has at most 21 digits and in the
    exponent form otherwise. *)
Definition Number_toString (z : Z) : string :=
  let a := Z.abs z in
  if a <? 2 ^ 53 then Z_to_string z
  else
    let '(s, p) := shortest_decimal (Z.to_nat (decimal_length a)) 1 (decimal_length a) a in
    let '(s, p) := if s mod 10 =? 0 then (s / 10, p + 1) else (s, p) in
    let n := decimal_length s + p in
    (if z <? 0 then "-" else "") +:+
    (if n <=? 21 then Z_to_string (s * 10 ^ p) else exponent_form s (n - 1)).

(** [ToString], the conversion [parseInt] applies to its argument. *)
Fixpoint ToString (j : json) : string :=
  match j with
  | JNull => "null"
  | JBool true => "true"
  | JBool false => "false"
  | JNum NaN => "NaN"
  | JNum (Int z) => Number_toString z
  | JNum (Infinity false) => "Infinity"
  | JNum (Infinity true) => "-Infinity"
  | JStr s => s
  | JArr items =>
      String.concat ","
        (map (fun x => match x with JNull => "" | _ => ToString x end) items)
  | JObj _ => "[object Object]"
  end.

(** [parseInt(v, 10)] for a possibly absent [v]. *)
Definition parseInt (v : option json) : number :=
  match v with
  | None => parseInt_string "undefined"
  | Some j => parseInt_string (ToString j)
  end.

Definition isNaN (n : number) : bool :=
  match n with NaN => true | _ => false end.

(** [a < b] on numbers: false as soon as one side is NaN. *)
Definition num_ltb (a b : number) : bool :=
  match a, b with
  | Int x, Int y => x <? y
  | Infinity true, Int _ => true
  | Infinity true, Infinity false => true
  | Int _, Infinity false => true
  | _, _ => false
  end.

(** [a - b]. *)
Definition num_sub (a b : number) : number :=
  match a, b with
  | Int x, Int y => Int (x - y)
  | Infinity s, Int _ => Infinity s
  | Int _, Infinity s => Infinity (negb s)
  | Infinity s, Infinity t => if Bool.eqb s t then NaN else Infinity s
  | _, _ => NaN
  end.

(** [a * b]. *)
Definition num_mul (a b : number) : number :=
  match a, b with
  | Int x, Int y => Int (x * y)
  | Infinity s, Int y | Int y, Infinity s =>
      if y =? 0 then NaN else Infinity (xorb s (y <? 0))
  | Infinity s, Infinity t => Infinity (xorb s t)
  | _, _ => NaN
  end.

(** [Math.ceil(a / b)]: for two integers the ceiling of the exact
    quotient, an infinity or NaN when the divisor is zero. *)
Definition Math_ceil_div (a b : number) : number :=
  match a, b with
  | Int x, Int y =>
      if y =? 0 then (if x =? 0 then NaN else Infinity (x <? 0))
      else Int (- ((- x) / y))
  | Int _, Infinity _ => Int 0
  | Infinity s, Int y => Infinity (xorb s (y <? 0))
  | _, _ => NaN
  end.

(** [Number.isInteger]. *)
Definition is_integer (n : number) : bool :=
  match n with Int _ => true | _ => false end.

(** ** Store keys *)

Definition is_hex (c : ascii) : bool :=
  let n := nat_of_ascii c in
  ((48 <=? n) && (n <=? 57) || (65 <=? n) && (n <=? 70)
   || (97 <=? n) && (n <=? 102))%nat.

Fixpoint all_hex (s : string) : bool :=
  match s with
  | String c s' => is_hex c && all_hex s'
  | EmptyString => true
  end.

(** [ObjectId.isValid] on a string: the store's key-validity predicate, a
    hexadecimal string of 24 characters. *)
Definition ObjectId_isValid (id : string) : bool :=
  (String.length id =? 24)%nat && all_hex id.

Definition to_lower (c : ascii) : ascii :=
  let n := nat_of_ascii c in
  if ((65 <=? n) && (n <=? 90))%nat then ascii_of_nat (n + 32) else c.

(** [new ObjectId(id)] for a valid [id]: the key the string denotes, kept
    as its lower-case hexadecimal form (upper- and lower-case digits
    denote the same key). *)
Fixpoint new_ObjectId (id : string) : string :=
  match id with
  | String c s' => String (to_lower c) (new_ObjectId s')
  | EmptyString => EmptyString
  end.

(** ** The world a request runs in *)

(** The calls made on the events collection. *)
Inductive store_call : Type :=
| CountDocuments
| FindSorted (skip lim : number)
| FindOne (key : string)
| InsertOne (d : doc)
| UpdateOne (key : string) (fields : doc)
| DeleteOne (key : string).

Record world : Type := World {
  NODE_ENV : option string;     (* process.env.NODE_ENV *)
  db : option (list doc);       (* the module variable [db] of config/db.js,
                                   with the events collection behind it *)
  outage : option string;       (* [Some m]: the store rejects every call
                                   with an error of message [m] *)
  calls : list store_call;      (* the store calls made so far, latest first *)
  timeline : nat -> Z;          (* what the system clock shows at each reading *)
  reads : nat;                  (* the clock readings made so far *)
  pkgen : nat -> string;        (* the keys the driver generates *)
  issued : nat;                 (* the keys generated so far *)
  console : list string         (* what console.error printed, latest first *)
}.

Definition with_db (docs : list doc) (w : world) : world :=
  World (NODE_ENV w) (Some docs) (outage w) (calls w) (timeline w) (reads w)
        (pkgen w) (issued w) (console w).

Definition with_call (c : store_call) (w : world) : world :=
  World (NODE_ENV w) (db w) (outage w) (c :: calls w) (timeline w) (reads w)
        (pkgen w) (issued w) (console w).

Definition with_read (w : world) : world :=
  World (NODE_ENV w) (db w) (outage w) (calls w) (timeline w) (S (reads w))
        (pkgen w) (issued w) (console w).

Definition with_issue (w : world) : world :=
  World (NODE_ENV w) (db w) (outage w) (calls w) (timeline w) (reads w)
        (pkgen w) (S (issued w)) (console w).

Definition with_console (line : string) (w : world) : world :=
  World (NODE_ENV w) (db w) (outage w) (calls w) (timeline w) (reads w)
        (pkgen w) (issued w) (line :: console w).

Definition with_env (mode : option string) (w : world) : world :=
  World mode (db w) (outage w) (calls w) (timeline w) (reads w)
        (pkgen w) (issued w) (console w).

(** ** Computations that may throw *)

Inductive outcome (A : Type) : Type :=
| Return (a : A)
| Throw (msg : string).
Arguments Return {A} a.
Arguments Throw {A} msg.

Definition M (A : Type) : Type := world -> outcome A * world.

Definition ret {A} (a : A) : M A := fun w => (Return a, w).

Definition throw {A} (msg : string) : M A := fun w => (Throw msg, w).

Definition bind {A B} (m : M A) (k : A -> M B) : M B :=
  fun w =>
    match m w with
    | (Return a, w') => k a w'
    | (Throw msg, w') => (Throw msg, w')
    end.

Notation "'do' x <- m ; k" := (bind m (fun x => k))
  (at level 10, x name, m at level 99, k at level 200).

(** [new Date()]: one reading of the clock. *)
Definition new_Date : M date :=
  fun w => (Return (Clock (timeline w (reads w))), with_read w).

(** ** config/db.js *)

(** [getDB]: the connected handle, or an error when [db] is null. *)
Definition getDB : M unit :=
  fun w =>
    match db w with
    | Some _ => (Return tt, w)
    | None => (Throw "Database not initialized. Call connectDB() first.", w)
    end.

(** ** The store behind the handle *)

(** One awaited call on the collection: it is recorded, fails during an
    outage, and otherwise runs [f] on the documents. *)
Definition store_op {A} (c : store_call)
    (f : list doc -> outcome A * list doc) : M A :=
  fun w =>
    let w1 := with_call c w in
    match outage w1, db w1 with
    | Some m, _ => (Throw m, w1)
    | None, None => (Throw "Client must be connected before running operations", w1)
    | None, Some docs => let '(r, docs') := f docs in (r, with_db docs' w1)
    end.

Definition has_id (key : string) (d : doc) : bool :=
  bool_decide (d !! "_id" = Some (VOid key)).

Definition findOne (key : string) : M (option doc) :=
  store_op (FindOne key) (fun docs => (Return (List.find (has_id key) docs), docs)).

Definition countDocuments : M number :=
  store_op CountDocuments
    (fun docs => (Return (Int (Z.of_nat (length docs))), docs)).

(** [insertOne]: the driver gives the document a generated key, and the
    collection refuses a key it already holds. *)
Definition insertOne (d : doc) : M string :=
  fun w =>
    let key := pkgen w (issued w) in
    store_op (InsertOne d)
      (fun docs =>
         if existsb (has_id key) docs
         then (Throw "E11000 duplicate key error", docs)
         else (Return key, docs ++ [<["_id" := VOid key]> d]))
      (with_issue w).

Record update_result : Type := UpdateResult {
  matchedCount : nat;
  modifiedCount : nat
}.

(** [$set]: the fields of the update replace those of the document. *)
Definition set_fields (fields d : doc) : doc := fields ∪ d.

Fixpoint update_first (key : string) (fields : doc) (docs : list doc)
    : update_result * list doc :=
  match docs with
  | d :: rest =>
      if has_id key d
      then (UpdateResult 1 (if bool_decide (set_fields fields d = d) then 0 else 1),
            set_fields fields d :: rest)
      else let '(r, rest') := update_first key fields rest in (r, d :: rest')
  | [] => (UpdateResult 0 0, [])
  end.

Definition updateOne (key : string) (fields : doc) : M update_result :=
  store_op (UpdateOne key fields)
    (fun docs => let '(r, docs') := update_first key fields docs in (Return r, docs')).

Fixpoint delete_first (key : string) (docs : list doc) : nat * list doc :=
  match docs with
  | d :: rest =>
      if has_id key d then (1%nat, rest)
      else let '(n, rest') := delete_first key rest in (n, d :: rest')
  | [] => (0%nat, [])
  end.

Definition deleteOne (key : string) : M nat :=
  store_op (DeleteOne key)
    (fun docs => let '(n, docs') := delete_first key docs in (Return n, docs')).

(** ** Responses *)

Inductive payload : Type :=
| EventData (d : doc)
| EventList (l : list doc)
| InsertedId (key : string)
| ModifiedCount (n : nat).

Record page_info : Type := PageInfo {
  currentPage : number;
  limit : number;
  totalEvents : number;
  totalPages : number
}.

(** The JSON envelope; a field that is [None] is absent from the JSON
    text. *)
Record envelope : Type := Envelope {
  success : bool;
  message : option string;
  data : option payload;
  pagination : option page_info;
  error : option string
}.

Record response : Type := Response {
  status : nat;
  json_of : envelope
}.

Definition handler : Type := world -> response * world.

(** [{ success: false, message }] with the given status. *)
Definition failure (code : nat) (msg : string) : response :=
  Response code (Envelope false (Some msg) None None None).

(** The [catch] block shared by the five handlers: the error is printed and
    answered with status 500, its message attached. *)
Definition catch_500 (label : string) (m : M response) : handler :=
  fun w =>
    match m w with
    | (Return r, w') => (r, w')
    | (Throw msg, w') =>
        (Response 500
           (Envelope false (Some "Internal server error") None None (Some msg)),
         with_console (label +:+ " " +:+ msg) w')
    end.

(** A request: [req.query], [req.params] and [req.body], which is [None]
    when it is [undefined]. *)
Record request : Type := Request {
  query : gmap string string;
  params : gmap string string;
  req_body : option body
}.

(** The messages of the TypeErrors the engine throws when [req.body] is
    [undefined]: for the destructuring at the head of [createEvent] and
    for [Object.keys] in [updateEvent], in the words of V8. *)
Definition destructure_undefined : string :=
  "Cannot destructure property 'uid' of 'req.body' as it is undefined.".

Definition keys_of_undefined : string :=
  "Cannot convert undefined or null to object".

(** ** The event controller *)

(** [!id] for a possibly absent string. *)
Definition missing (id : option string) : bool :=
  match id with
  | Some s => String.eqb s ""
  | None => true
  end.

(** GET /events?id=:event_id *)
Definition getEventById (req : request) : handler :=
  catch_500 "Error fetching event by ID:"
    (let id := query req !! "id" in
     if missing id then ret (failure 400 "Event ID is required")
     else
       let id := default "" id in
       if negb (ObjectId_isValid id)
       then ret (failure 400 "Invalid Event ID format")
       else
         do _ <- getDB;
         do event <- findOne (new_ObjectId id);
         match event with
         | None => ret (failure 404 "Event not found")
         | Some e =>
             ret (Response 200
                    (Envelope true None (Some (EventData e)) None None))
         end).

Section Listing.

(** The store's order on the values of the [schedule] field (absent
    included): [schedule_le a b] when [a] sorts no later than [b] in
    ascending order. *)
Variable schedule_le : option value -> option value -> bool.

(** [d1] may come before [d2] under [sort({ schedule: -1 })]. *)
Definition schedule_desc (d1 d2 : doc) : Prop :=
  schedule_le (d2 !! "schedule") (d1 !! "schedule") = true.

#[global] Instance schedule_desc_dec d1 d2 : Decision (schedule_desc d1 d2).
Proof. unfold schedule_desc. apply _. Defined.

(** [find({}).sort({ schedule: -1 }).skip(skip).limit(lim).toArray()];
    the store refuses a negative skip, takes a limit of zero as no limit
    and a negative limit by its magnitude, and is taken to refuse a skip
    or a limit that is not an integer. *)
Definition find_sorted (skip lim : number) : M (list doc) :=
  store_op (FindSorted skip lim)
    (fun docs =>
       match skip, lim with
       | Int s, Int l =>
           if s <? 0 then (Throw "Skip value must be non-negative", docs)
           else
             let rest := drop (Z.to_nat s) (merge_sort schedule_desc docs) in
             (Return (if l =? 0 then rest else take (Z.to_nat (Z.abs l)) rest),
              docs)
       | _, _ => (Throw "Skip and limit must be numbers", docs)
       end).

(** GET /events?type=latest&limit=5&page=1 *)
Definition getLatestEvents (req : request) : handler :=
  catch_500 "Error fetching latest events:"
    (let limit := default (JNum (Int 5)) (JStr <$> query req !! "limit") in
     let page := default (JNum (Int 1)) (JStr <$> query req !! "page") in
     let limitNum := parseInt (Some limit) in
     let pageNum := parseInt (Some page) in
     if isNaN limitNum || num_ltb limitNum (Int 1)
     then ret (failure 400 "Limit must be a positive integer")
     else if isNaN pageNum || num_ltb pageNum (Int 1)
     then ret (failure 400 "Page must be a positive integer")
     else
       let skip := num_mul (num_sub pageNum (Int 1)) limitNum in
       do _ <- getDB;
       do totalCount <- countDocuments;
       do events <- find_sorted skip limitNum;
       ret (Response 200
              (Envelope true None (Some (EventList events))
                 (Some (PageInfo pageNum limitNum totalCount
                          (Math_ceil_div totalCount limitNum)))
                 None))).

(** routes/eventRoutes.js, GET /events: a truthy [id] selects the
    lookup, everything else the listing. *)
Definition get_events (req : request) : handler :=
  if negb (missing (query req !! "id")) then getEventById req
  else getLatestEvents req.

End Listing.

(** The document [createEvent] builds from the body and three dates. *)
Definition eventDocument (b : body) (schedule createdAt updatedAt : date) : doc :=
  list_to_map
    [ ("type", VJson (JStr "event"));
      ("uid", VJson (or_else (b !! "uid") JNull));
      ("name", VJson (default JNull (b !! "name")));
      ("tagline", VJson (or_else (b !! "tagline") (JStr "")));
      ("schedule", VDate schedule);
      ("description", VJson (or_else (b !! "description") (JStr "")));
      ("files", VJson (or_else (b !! "files") (JObj [("image", JNull)])));
      ("moderator", VJson (or_else (b !! "moderator") JNull));
      ("category", VJson (or_else (b !! "category") (JStr "")));
      ("sub_category", VJson (or_else (b !! "sub_category") (JStr "")));
      ("rigor_rank",
        VJson (JNum (if truthy (b !! "rigor_rank")
                     then parseInt (b !! "rigor_rank") else Int 0)));
      ("attendees",
        VJson (if Array_isArray (b !! "attendees")
               then default (JArr []) (b !! "attendees") else JArr []));
      ("createdAt", VDate createdAt);
      ("updatedAt", VDate updatedAt) ].

(** POST /events *)
Definition createEvent (req : request) : handler :=
  catch_500 "Error creating event:"
    (match req_body req with
     | None => throw destructure_undefined
     | Some b =>
         if negb (truthy (b !! "name"))
         then ret (failure 400 "Event name is required")
         else
           do schedule <-
             (match b !! "schedule" with
              | Some s => if truthy (Some s) then ret (DateOf s) else new_Date
              | None => new_Date
              end);
           do createdAt <- new_Date;
           do updatedAt <- new_Date;
           do _ <- getDB;
           do insertedId <- insertOne (eventDocument b schedule createdAt updatedAt);
           ret (Response 201
                  (Envelope true (Some "Event created successfully")
                     (Some (InsertedId insertedId)) None None))
     end).

(** The update set [updateEvent] hands to [$set]: the body without [_id]
    and [type], [schedule] turned into a date when truthy, [rigor_rank]
    parsed when present, and [updatedAt]. *)
Definition updateFields (b : body) (now : date) : doc :=
  let b := delete "type" (delete "_id" b) in
  let fields : doc := VJson <$> b in
  let fields :=
    match b !! "schedule" with
    | Some s => if truthy (Some s) then <["schedule" := VDate (DateOf s)]> fields
                else fields
    | None => fields
    end in
  let fields :=
    match b !! "rigor_rank" with
    | Some r => <["rigor_rank" := VJson (JNum (parseInt (Some r)))]> fields
    | None => fields
    end in
  <["updatedAt" := VDate now]> fields.

(** PUT /events/:id *)
Definition updateEvent (req : request) : handler :=
  catch_500 "Error updating event:"
    (let id := params req !! "id" in
     if missing id then ret (failure 400 "Event ID is required")
     else
       let id := default "" id in
       if negb (ObjectId_isValid id)
       then ret (failure 400 "Invalid Event ID format")
       else
         match req_body req with
         | None => throw keys_of_undefined
         | Some b =>
             if bool_decide (size b = 0%nat)
             then ret (failure 400 "No update fields provided")
             else
               do now <- new_Date;
               do _ <- getDB;
               do result <- updateOne (new_ObjectId id) (updateFields b now);
               if (matchedCount result =? 0)%nat
               then ret (failure 404 "Event not found")
               else
                 ret (Response 200
                        (Envelope true (Some "Event updated successfully")
                           (Some (ModifiedCount (modifiedCount result))) None None))
         end).

(** DELETE /events/:id *)
Definition deleteEvent (req : request) : handler :=
  catch_500 "Error deleting event:"
    (let id := params req !! "id" in
     if missing id then ret (failure 400 "Event ID is required")
     else
       let id := default "" id in
       if negb (ObjectId_isValid id)
       then ret (failure 400 "Invalid Event ID format")
       else
         do _ <- getDB;
         do deletedCount <- deleteOne (new_ObjectId id);
         if (deletedCount =? 0)%nat
         then ret (failure 404 "Event not found")
         else
           ret (Response 200
                  (Envelope true (Some "Event deleted successfully")
                     None None None))).

(** ** The global error handler of the server file *)

Definition globalErrorHandler (err : string) : handler :=
  fun w =>
    (Response 500
       (Envelope false (Some "Internal server error") None None
          (if bool_decide (NODE_ENV w = Some "development") then Some err else None)),
     with_console ("Unhandled error: " +:+ err) w).

(** ** Notions used in the statements; sample worlds and requests *)

(** A connected, empty store in production mode; the clock advances by one
    millisecond at each reading. *)
Definition quiet : world :=
  World (Some "production") (Some []) None []
        (fun n => 1700000000000 + Z.of_nat n) 0
        (fun n => "64f5a6c1e987654321fedcb" +:+ Z_to_string (Z.of_nat n)) 0 [].

Definition by_query (id : string) : request := Request {["id" := id]} ∅ None.

Definition by_path (id : string) (b : body) : request :=
  Request ∅ {["id" := id]} (Some b).

Definition post (b : body) : request := Request ∅ ∅ (Some b).

(** A POST and a PUT without a body. *)
Definition bare_post : request := Request ∅ ∅ None.

Definition bare_put (id : string) : request := Request ∅ {["id" := id]} None.

(** The document stored under a key, and one of its fields. *)
Definition stored (w : world) (key : string) : option doc :=
  db w ≫= List.find (has_id key).

Definition stored_field (w : world) (key field : string) : option value :=
  stored w key ≫= (fun d => d !! field).

(** The store of [quiet], unreachable. *)
Definition down : world :=
  World (Some "production") (Some []) (Some "connect ECONNREFUSED 127.0.0.1:27017")
        [] (timeline quiet) 0 (pkgen quiet) 0 [].

(** [limitNum] and [pageNum] as [getLatestEvents] computes them. *)
Definition limitNum_of (req : request) : number :=
  parseInt (Some (default (JNum (Int 5)) (JStr <$> query req !! "limit"))).

Definition pageNum_of (req : request) : number :=
  parseInt (Some (default (JNum (Int 1)) (JStr <$> query req !! "page"))).

(** [Number.MAX_SAFE_INTEGER]: up to it, integers and their sums and
    products are exact in JavaScript. *)
Definition MAX_SAFE_INTEGER : Z := 2 ^ 53 - 1.

(** An order on schedule values by which a store can sort: any two values
    are comparable, and the order is transitive. *)
Definition total_preorder (le : option value -> option value -> bool) : Prop :=
  (forall a b, le a b = true \/ le b a = true) /\
  (forall a b c, le a b = true -> le b c = true -> le a c = true).

(** Documents in schedule-descending order: the schedule of each document
    is at least, in the order [le], that of every document after it. *)
Definition descending (le : option value -> option value -> bool) (l : list doc)
    : Prop :=
  forall (i j : nat) (di dj : doc),
    (i < j)%nat -> l !! i = Some di -> l !! j = Some dj ->
    le (dj !! "schedule") (di !! "schedule") = true.

(** A number that is NaN or below one. *)
Definition not_positive (n : number) : Prop :=
  n = NaN \/ n = Infinity true \/ exists z : Z, n = Int z /\ z < 1.

(** The specification's reading of "denotes a positive integer": the text
    is a decimal numeral whose value is at least one. *)
Fixpoint all_digits (s : string) : bool :=
  match s with
  | String c s' => bool_decide (is_Some (digit_of c)) && all_digits s'
  | EmptyString => true
  end.

Definition denotes_positive_integer (s : string) : bool :=
  negb (String.eqb s "") && all_digits s
  && match read_digits None s with Some z => 1 <=? z | None => false end.

(** A sample order on schedules: clock dates by their instant, after
    everything that is not a clock date. *)
Definition clock_le (a b : option value) : bool :=
  match a, b with
  | Some (VDate (Clock x)), Some (VDate (Clock y)) => x <=? y
  | Some (VDate (Clock _)), _ => false
  | _, _ => true
  end.

Definition listing (limit page : string) : request :=
  Request (list_to_map [("type", "latest"); ("limit", limit); ("page", page)]) ∅ None.

(** Three documents, scheduled at the instants 10, 30 and 20. *)
Definition shelf_a : doc :=
  list_to_map [("_id", VOid "64f5a6c1e987654321fedc0a"); ("type", VJson (JStr "event"));
               ("schedule", VDate (Clock 10))].

Definition shelf_b : doc :=
  list_to_map [("_id", VOid "64f5a6c1e987654321fedc0b"); ("type", VJson (JStr "event"));
               ("schedule", VDate (Clock 30))].

Definition shelf_c : doc :=
  list_to_map [("_id", VOid "64f5a6c1e987654321fedc0c"); ("type", VJson (JStr "event"));
               ("schedule", VDate (Clock 20))].

Definition shelf : list doc := [shelf_a; shelf_b; shelf_c].

Definition stocked : world :=
  World (Some "production") (Some shelf) None [] (timeline quiet) 0 (pkgen quiet) 0 [].

(** The schedule of a new event and the number of clock readings it took:
    the converted input when it is truthy, a clock reading otherwise. *)
Definition schedule_of (b : body) (w : world) : date * nat :=
  match b !! "schedule" with
  | Some s => if truthy (Some s) then (DateOf s, 0%nat)
              else (Clock (timeline w (reads w)), 1%nat)
  | None => (Clock (timeline w (reads w)), 1%nat)
  end.

(** The document a creation stores in world [w]. *)
Definition created_doc (b : body) (w : world) : doc :=
  let '(schedule, n) := schedule_of b w in
  <["_id" := VOid (pkgen w (issued w))]>
    (eventDocument b schedule
       (Clock (timeline w (n + reads w)))
       (Clock (timeline w (S (n + reads w))))).


(** The fields of a stored event. *)
Definition event_fields : list string :=
  [ "_id"; "type"; "uid"; "name"; "tagline"; "schedule"; "description";
    "files"; "moderator"; "category"; "sub_category"; "rigor_rank";
    "attendees"; "createdAt"; "updatedAt" ].

(** A sample input: a name and a tagline. *)
Definition launch : body :=
  list_to_map [("name", JStr "Launch"); ("tagline", JStr "Go")].


(** A sample update: new values for the two reserved keys and for the
    name. *)
Definition rename : body :=
  list_to_map [("_id", JStr "000000000000000000000000"); ("type", JStr "nudge");
               ("name", JStr "Relaunch")].

(** A sample update that names the reserved keys only. *)
Definition retype : body :=
  list_to_map [("_id", JStr "000000000000000000000000"); ("type", JStr "nudge")].

(** A computation that neither reads nor writes [NODE_ENV]. *)
Definition env_blind {A} (m : M A) : Prop :=
  forall (mode : option string) (w : world),
    m (with_env mode w) = (fst (m w), with_env mode (snd (m w))).

(** ** Further notions: the five handlers, invariants of the collection, pages *)

(** The five handlers of the controller. *)
Definition handlers (schedule_le : option value -> option value -> bool)
    : list (request -> handler) :=
  [getEventById; getLatestEvents schedule_le; createEvent; updateEvent; deleteEvent].

(** The answer of a [catch] block. *)
Definition internal_error (msg : string) : response :=
  Response 500 (Envelope false (Some "Internal server error") None None (Some msg)).

(** [w'] is [w] up to the record of store calls and the console. *)
Definition same_but_logs (w w' : world) : Prop :=
  w' = World (NODE_ENV w) (db w) (outage w) (calls w') (timeline w) (reads w)
         (pkgen w) (issued w) (console w').

(** The key of a document, and a collection without two documents of the
    same key. *)
Definition key_of (d : doc) : option value := d !! "_id".

Definition unique_keys (docs : list doc) : Prop := NoDup (map key_of docs).

(** A document as [createEvent] stores them: of type "event", under a
    store key, with every field of an event. *)
Definition is_event (d : doc) : Prop :=
  d !! "type" = Some (VJson (JStr "event")) /\
  (exists key, d !! "_id" = Some (VOid key)) /\
  Forall (fun k => is_Some (d !! k)) event_fields.

(** The documents of a listing response. *)
Definition listed (r : response) : list doc :=
  match data (json_of r) with
  | Some (EventList l) => l
  | _ => []
  end.

(** The request for page [P] of pages of [L] documents. *)
Definition page_request (L : Z) (P : nat) : request :=
  listing (Z_to_string L) (Z_to_string (Z.of_nat P)).

(** A world whose [db] is null. *)
Definition unconnected : world :=
  World (Some "production") None None [] (timeline quiet) 0 (pkgen quiet) 0 [].

(** The world [quiet] after the creation of [launch]. *)
Definition launched : world := with_db [created_doc launch quiet] quiet.

(** ** config/db.js: connecting and closing *)

(** [a || b] on a possibly unset environment variable. *)
Definition env_or (v : option string) (dflt : string) : string :=
  match v with
  | Some s => if String.eqb s "" then dflt else s
  | None => dflt
  end.

Definition without_db (w : world) : world :=
  World (NODE_ENV w) None (outage w) (calls w) (timeline w) (reads w)
        (pkgen w) (issued w) (console w).

(** The process around the handlers' world, with the server it talks to. *)
Record process : Type := Process {
  node : world;                 (* what the handlers run in; [db node] is the
                                   module variable [db] *)
  client : option string;       (* the module variable [client]: the URI it
                                   was made for, [None] when null *)
  MONGODB_URI : option string;  (* process.env.MONGODB_URI *)
  DB_NAME : option string;      (* process.env.DB_NAME *)
  database : string;            (* the name of the database [db] is a handle of *)
  refusal : string -> option string;
                                (* per URI, the error with which making the
                                   client, connecting or the ping fails *)
  close_failure : option string;
                                (* the error with which closing the client
                                   fails, if it does *)
  held : gmap string (list doc);
                                (* per database name, the events collection
                                   as the server holds it while the process
                                   has no handle of it *)
  stdout : list string          (* what console.log printed, latest first *)
}.

(** How [connectDB] ends: it returns, or the process exits with a code,
    leaving its console output. *)
Inductive run : Type :=
| Running (p : process)
| Exited (code : nat) (lines : list string).

(** [connectDB]: the handle there is, or a new client, connection, ping
    and handle; any failure on the way ends the process with code 1. *)
Definition connectDB (p : process) : run :=
  match db (node p) with
  | Some _ => Running p
  | None =>
      let uri := env_or (MONGODB_URI p) "mongodb://localhost:27017" in
      let dbName := env_or (DB_NAME p) "events_db" in
      match refusal p uri with
      | Some msg =>
          Exited 1 (("❌ MongoDB connection error: " +:+ msg) :: console (node p))
      | None =>
          Running
            (Process (with_db (default [] (held p !! dbName)) (node p))
               (Some uri) (MONGODB_URI p) (DB_NAME p) dbName (refusal p)
               (close_failure p) (held p)
               ("✅ Successfully connected to MongoDB" :: stdout p))
      end
  end.

(** [closeDB]: with a client, it is closed and [client] and [db] are set
    to null; without one, nothing happens. *)
Definition closeDB (p : process) : outcome unit * process :=
  match client p with
  | Some _ =>
      match close_failure p with
      | Some msg => (Throw msg, p)
      | None =>
          (Return tt,
           Process (without_db (node p)) None (MONGODB_URI p) (DB_NAME p)
             (database p) (refusal p) (close_failure p)
             (match db (node p) with
              | Some docs => <[database p := docs]> (held p)
              | None => held p
              end)
             ("🔌 MongoDB connection closed" :: stdout p))
      end
  | None => (Return tt, p)
  end.

(** A process that has not connected yet, with the documents of [shelf] at
    a server that accepts connections. *)
Definition office : process :=
  Process unconnected None None None "" (fun _ => None) None
          {["events_db" := shelf]} [].

(** The same process, connected. *)
Definition open_office : process :=
  Process stocked (Some "mongodb://localhost:27017") None None "events_db"
          (fun _ => None) None {["events_db" := shelf]}
          ["✅ Successfully connected to MongoDB"].

(** ** Basic facts about the store *)

Lemma getDB_connected (w : world) (docs : list doc) :
  db w = Some docs -> getDB w = (Return tt, w).
Proof. intros H. unfold getDB. now rewrite H. Qed.

Lemma store_op_available {A} (c : store_call)
    (f : list doc -> outcome A * list doc) (w : world) (docs : list doc) :
  db w = Some docs -> outage w = None ->
  store_op c f w =
    (fst (f docs), with_db (snd (f docs)) (with_call c w)).
Proof.
  intros Hdb Hout. unfold store_op. simpl. rewrite Hout, Hdb.
  now destruct (f docs).
Qed.

Lemma find_absent (key : string) (docs : list doc) :
  existsb (has_id key) docs = false -> List.find (has_id key) docs = None.
Proof.
  induction docs as [|d rest IH]; simpl; [reflexivity|].
  destruct (has_id key d); simpl; [discriminate | exact IH].
Qed.


Lemma delete_first_absent (key : string) (docs : list doc) :
  existsb (has_id key) docs = false ->
  delete_first key docs = (0%nat, docs).
Proof.
  induction docs as [|d rest IH]; simpl; [reflexivity|].
  destruct (has_id key d); simpl; [discriminate|].
  intros H. now rewrite (IH H).
Qed.


#[global] Arguments truthy : simpl never.
#[global] Arguments parseInt : simpl never.
#[global] Arguments ObjectId_isValid : simpl never.
#[global] Arguments new_ObjectId : simpl never.
#[global] Arguments eventDocument : simpl never.
#[global] Arguments updateFields : simpl never.

(** Runs the next store call of the goal on an available store. *)
Ltac store_step docs Hdb Hout :=
  match goal with
  | |- context [store_op ?c ?f ?w0] =>
      rewrite (store_op_available c f w0 docs Hdb Hout)
  end.

(** Unfolds a handler down to the store calls. *)
Ltac run_handler :=
  unfold getEventById, getLatestEvents, createEvent, updateEvent, deleteEvent,
    catch_500, bind, ret, throw; simpl.

(** ** Decimal numerals and [parseInt] *)

Lemma digit_of_char (d : Z) :
  0 <= d < 10 -> digit_of (ascii_of_nat (Z.to_nat (48 + d))) = Some d.
Proof.
  intros H.
  assert (Hd : d = 0 \/ d = 1 \/ d = 2 \/ d = 3 \/ d = 4 \/ d = 5 \/ d = 6
               \/ d = 7 \/ d = 8 \/ d = 9) by lia.
  repeat (destruct Hd as [-> | Hd]; [reflexivity|]). now subst.
Qed.

(** A digit is neither white space nor a sign. *)
Lemma digit_char_plain (c : ascii) (rest : string) :
  is_Some (digit_of c) ->
  is_space c = false /\
  match String c rest with
  | String "-" r => (-1, r)
  | String "+" r => (1, r)
  | _ => (1, String c rest)
  end = (1, String c rest).
Proof.
  intros [d Hd].
  destruct c as [[] [] [] [] [] [] [] []]; try discriminate Hd; split; reflexivity.
Qed.

(** Reading the numeral of [n] continues the value read so far. *)
Lemma read_digits_numeral (fuel : nat) :
  forall (n : Z) (tail : string),
    0 <= n < 10 ^ Z.of_nat (S fuel) ->
    exists k : Z,
      0 < k /\
      (forall acc : option Z,
         read_digits acc (digits_of_pos (S fuel) n tail)
           = read_digits (Some (10 ^ k * default 0 acc + n)) tail).
Proof.
  induction fuel as [|fuel IH]; intros n tail Hn;
    pose proof (Z.mod_pos_bound n 10 ltac:(lia)) as Hmod;
    pose proof (Z.div_mod n 10 ltac:(lia)) as Hdiv.
  - assert (Hlt : (n <? 10) = true) by (apply Z.ltb_lt; simpl in Hn; lia).
    cbn [digits_of_pos]. rewrite Hlt.
    exists 1. split; [lia|]. intros acc.
    cbn [read_digits]. rewrite (digit_of_char (n mod 10) Hmod).
    apply Z.ltb_lt in Hlt. rewrite Z.mod_small by lia. reflexivity.
  - change (digits_of_pos (S (S fuel)) n tail) with
      (let tail' := String (ascii_of_nat (Z.to_nat (48 + n mod 10))) tail in
       if n <? 10 then tail' else digits_of_pos (S fuel) (n / 10) tail').
    cbv zeta. destruct (n <? 10) eqn:Hlt.
    + apply Z.ltb_lt in Hlt. exists 1. split; [lia|]. intros acc.
      cbn [read_digits]. rewrite (digit_of_char (n mod 10) Hmod).
      rewrite Z.mod_small by lia. reflexivity.
    + apply Z.ltb_ge in Hlt.
      destruct (IH (n / 10)
                  (String (ascii_of_nat (Z.to_nat (48 + n mod 10))) tail))
        as (k & Hk & Hread).
      { rewrite (Nat2Z.inj_succ (S fuel)), Z.pow_succ_r in Hn by lia.
        split; [apply Z.div_pos; lia | apply Z.div_lt_upper_bound; lia]. }
      exists (k + 1). split; [lia|]. intros acc. rewrite Hread.
      cbn [read_digits]. rewrite (digit_of_char (n mod 10) Hmod).
      f_equal. f_equal. rewrite Z.pow_add_r by lia. simpl default. lia.
Qed.

(** A numeral starts with a digit. *)
Lemma numeral_head (fuel : nat) :
  forall (n : Z) (tail : string),
    0 <= n ->
    exists c rest,
      digits_of_pos (S fuel) n tail = String c rest /\ is_Some (digit_of c).
Proof.
  induction fuel as [|fuel IH]; intros n tail Hn;
    pose proof (Z.mod_pos_bound n 10 ltac:(lia)) as Hmod.
  - cbn [digits_of_pos]. destruct (n <? 10);
      eexists _, _; (split; [reflexivity|]);
      rewrite (digit_of_char (n mod 10) Hmod); eauto.
  - change (digits_of_pos (S (S fuel)) n tail) with
      (let tail' := String (ascii_of_nat (Z.to_nat (48 + n mod 10))) tail in
       if n <? 10 then tail' else digits_of_pos (S fuel) (n / 10) tail').
    cbv zeta. destruct (n <? 10).
    + eexists _, _; (split; [reflexivity|]).
      rewrite (digit_of_char (n mod 10) Hmod); eauto.
    + apply IH. apply Z.div_pos; lia.
Qed.

(** The fuel [Z_to_string] gives covers every digit. *)
Lemma log2_fuel (n : Z) :
  0 <= n -> 0 <= n < 10 ^ Z.of_nat (S (Z.to_nat (Z.log2 n))).
Proof.
  intros Hn. split; [exact Hn|].
  rewrite Nat2Z.inj_succ, Z2Nat.id by apply Z.log2_nonneg.
  destruct (Z.eq_dec n 0) as [->|Hz]; [simpl; lia|].
  pose proof (Z.log2_spec n ltac:(lia)) as [_ Hup].
  eapply Z.lt_le_trans; [exact Hup|].
  apply Z.pow_le_mono_l. lia.
Qed.

(** An integer below 2^53 in magnitude is a number. *)
Lemma to_number_safe (z : Z) : Z.abs z < 2 ^ 53 -> to_number z = Int z.
Proof.
  intros H. unfold to_number. cbv zeta.
  now rewrite (proj2 (Z.ltb_lt (Z.abs z) (2 ^ 53)) H).
Qed.

(** [parseInt] reads the decimal numeral of an integer back, as the
    number nearest to it. *)
Lemma parseInt_rounds (z : Z) : parseInt_string (Z_to_string z) = to_number z.
Proof.
  unfold Z_to_string, parseInt_string.
  destruct (z <? 0) eqn:Hneg.
  - apply Z.ltb_lt in Hneg. cbn [trim_start].
    change (is_space "-") with false. cbv iota.
    destruct (read_digits_numeral _ (- z) "" (log2_fuel (- z) ltac:(lia)))
      as (k & _ & Hread).
    rewrite Hread. cbn [read_digits default]. f_equal. lia.
  - apply Z.ltb_ge in Hneg.
    destruct (numeral_head (Z.to_nat (Z.log2 z)) z "" Hneg)
      as (c & rest & Hhead & Hc).
    destruct (digit_char_plain c rest Hc) as [Hsp Hsign].
    destruct (read_digits_numeral _ z "" (log2_fuel z Hneg)) as (k & _ & Hread).
    rewrite Hhead in *. cbn [trim_start]. rewrite Hsp, Hsign, Hread.
    cbn [read_digits default]. f_equal. lia.
Qed.

(** Below 2^53 in magnitude, reading the numeral back gives the integer
    itself. *)
Lemma parseInt_numeral (z : Z) :
  Z.abs z < 2 ^ 53 -> parseInt_string (Z_to_string z) = Int z.
Proof. intros H. rewrite parseInt_rounds. now apply to_number_safe. Qed.

(** A text that denotes a positive integer in the specification's reading
    is read by [parseInt] as the number nearest to an integer of at least
    one. *)
Lemma parseInt_strict_numeral (s : string) :
  denotes_positive_integer s = true ->
  exists L : Z, parseInt_string s = to_number L /\ 1 <= L.
Proof.
  unfold denotes_positive_integer. intros H.
  apply andb_prop in H as [H Hval]. apply andb_prop in H as [Hne Hdig].
  destruct s as [|c rest]; [discriminate Hne|].
  cbn [all_digits] in Hdig. apply andb_prop in Hdig as [Hc _].
  apply bool_decide_eq_true in Hc.
  destruct (digit_char_plain c rest Hc) as [Hsp Hsign].
  unfold parseInt_string. cbn [trim_start]. rewrite Hsp, Hsign.
  destruct (read_digits None (String c rest)) as [z|]; [|discriminate Hval].
  exists z. split; [f_equal; lia | now apply Z.leb_le].
Qed.

(** ** Identifier validation (C1) *)




(** Through the route of [GET /events], an empty [id] selects the listing:
    the lookup never sees it. *)
Example route_of_empty_id :
  get_events clock_le (by_query "") stocked
    = getLatestEvents clock_le (by_query "") stocked /\
  status (fst (get_events clock_le (by_query "") stocked)) = 200%nat.
Proof. split; [reflexivity | vm_compute; reflexivity]. Qed.

(** Deleting a stored document twice: 200, then 404. *)
Example delete_twice :
  let req := by_path "64f5a6c1e987654321fedc0a" ∅ in
  let w1 := snd (deleteEvent req stocked) in
  fst (deleteEvent req stocked)
    = Response 200
        (Envelope true (Some "Event deleted successfully") None None None) /\
  db w1 = Some [shelf_b; shelf_c] /\
  fst (deleteEvent req w1) = failure 404 "Event not found".
Proof. repeat split; vm_compute; reflexivity. Qed.

(** ** Creation without a name (C8) *)




(** ** The handlers do not look at the mode of the process *)

Lemma blind_ret {A} (a : A) : env_blind (ret a).
Proof. intros mode w. reflexivity. Qed.

Lemma blind_throw {A} (msg : string) : env_blind (@throw A msg).
Proof. intros mode w. reflexivity. Qed.

Lemma blind_bind {A B} (m : M A) (k : A -> M B) :
  env_blind m -> (forall a, env_blind (k a)) -> env_blind (bind m k).
Proof.
  intros Hm Hk mode w. unfold bind. rewrite Hm.
  destruct (m w) as [[a | msg] w1]; simpl; [apply Hk | reflexivity].
Qed.

Lemma blind_new_Date : env_blind new_Date.
Proof. intros mode w. reflexivity. Qed.

Lemma blind_getDB : env_blind getDB.
Proof. intros mode w. unfold getDB. simpl. now destruct (db w). Qed.

Lemma blind_store_op {A} (c : store_call) (f : list doc -> outcome A * list doc) :
  env_blind (store_op c f).
Proof.
  intros mode w. unfold store_op. simpl.
  destruct (outage w); [reflexivity|].
  destruct (db w) as [docs|]; [|reflexivity].
  now destruct (f docs).
Qed.

Lemma blind_insertOne (d : doc) : env_blind (insertOne d).
Proof.
  intros mode w. unfold insertOne. simpl.
  exact (blind_store_op _ _ mode (with_issue w)).
Qed.

Lemma blind_catch_500 (label : string) (m : M response) (mode : option string)
    (w : world) :
  env_blind m -> fst (catch_500 label m (with_env mode w)) = fst (catch_500 label m w).
Proof.
  intros Hm. unfold catch_500. rewrite Hm.
  now destruct (m w) as [[r | msg] w1].
Qed.

(** Closes a goal [env_blind m] for a computation built from the
    primitives above. *)
Ltac blind :=
  repeat first
    [ apply blind_ret
    | apply blind_throw
    | apply blind_new_Date
    | apply blind_getDB
    | apply blind_store_op
    | apply blind_insertOne
    | apply blind_bind; [|intros ?]
    | match goal with
      | |- env_blind (if ?c then _ else _) => destruct c
      | |- env_blind (match ?x with _ => _ end) => destruct x
      end ].

(** X21.  The answer of each of the five handlers is the same in every
    mode of the process: none of them reads [NODE_ENV]. *)
Lemma handlers_ignore_NODE_ENV (schedule_le : option value -> option value -> bool)
    (req : request) (mode : option string) (w : world) :
  fst (getEventById req (with_env mode w)) = fst (getEventById req w) /\
  fst (getLatestEvents schedule_le req (with_env mode w))
    = fst (getLatestEvents schedule_le req w) /\
  fst (createEvent req (with_env mode w)) = fst (createEvent req w) /\
  fst (updateEvent req (with_env mode w)) = fst (updateEvent req w) /\
  fst (deleteEvent req (with_env mode w)) = fst (deleteEvent req w).
Proof.
  repeat split; apply blind_catch_500; cbv zeta;
    unfold findOne, countDocuments, find_sorted, updateOne, deleteOne; blind.
Qed.

(** ** Error detail (C4) *)

(** Whatever the mode of the process, the [catch] block of a handler puts
    the message of the error it caught into the envelope. *)
Lemma catch_500_detail (label msg : string) (m : M response) (w w' : world) :
  m w = (Throw msg, w') ->
  fst (catch_500 label m w)
    = Response 500
        (Envelope false (Some "Internal server error") None None (Some msg)).
Proof. intros H. unfold catch_500. now rewrite H. Qed.

(** C4, the failing input.  In production mode, with the store
    unreachable, the lookup handler answers 500 with the raw error message
    in the envelope, and so do the other four; the global error handler,
    on the same world, leaves the detail out. *)
Theorem error_detail_in_production :
  let leak :=
    Response 500
      (Envelope false (Some "Internal server error") None None
         (Some "connect ECONNREFUSED 127.0.0.1:27017")) in
  NODE_ENV down = Some "production" /\
  fst (getEventById (by_query "64f5a6c1e987654321fedcba") down) = leak /\
  fst (getLatestEvents (fun _ _ => true) (Request ∅ ∅ None) down) = leak /\
  fst (createEvent (post {["name" := JStr "Launch"]}) down) = leak /\
  fst (updateEvent (by_path "64f5a6c1e987654321fedcba" {["name" := JStr "Launch"]}) down)
    = leak /\
  fst (deleteEvent (by_path "64f5a6c1e987654321fedcba" ∅) down) = leak /\
  error (json_of (fst (globalErrorHandler "connect ECONNREFUSED 127.0.0.1:27017" down)))
    = None.
Proof. repeat split; vm_compute; reflexivity. Qed.

(** ** The stored rigor rank (C5) *)

(** C5, the failing input.  Creating an event with the rigor rank "high"
    stores NaN, which is not an integer; updating the rigor rank of that
    event to null stores NaN as well. *)
Theorem rigor_rank_not_a_number :
  let w1 :=
    snd (createEvent
           (post (list_to_map [("name", JStr "Launch"); ("rigor_rank", JStr "high")]))
           quiet) in
  let w2 :=
    snd (createEvent (post {["name" := JStr "Launch"]}) quiet) in
  let w3 :=
    snd (updateEvent
           (by_path "64f5a6c1e987654321fedcb0" {["rigor_rank" := JNull]}) w2) in
  stored_field w1 "64f5a6c1e987654321fedcb0" "rigor_rank" = Some (VJson (JNum NaN)) /\
  stored_field w2 "64f5a6c1e987654321fedcb0" "rigor_rank" = Some (VJson (JNum (Int 0))) /\
  stored_field w3 "64f5a6c1e987654321fedcb0" "rigor_rank" = Some (VJson (JNum NaN)) /\
  is_integer NaN = false.
Proof. repeat split; vm_compute; reflexivity. Qed.

(** ** Paging parameters (C7, C3) *)

(** The listing handler, with its two parsed parameters named. *)
Lemma getLatestEvents_paging (schedule_le : option value -> option value -> bool)
    (req : request) :
  getLatestEvents schedule_le req =
    catch_500 "Error fetching latest events:"
      (if isNaN (limitNum_of req) || num_ltb (limitNum_of req) (Int 1)
       then ret (failure 400 "Limit must be a positive integer")
       else if isNaN (pageNum_of req) || num_ltb (pageNum_of req) (Int 1)
       then ret (failure 400 "Page must be a positive integer")
       else
         do _ <- getDB;
         do totalCount <- countDocuments;
         do events <-
           find_sorted schedule_le
             (num_mul (num_sub (pageNum_of req) (Int 1)) (limitNum_of req))
             (limitNum_of req);
         ret (Response 200
                (Envelope true None (Some (EventList events))
                   (Some (PageInfo (pageNum_of req) (limitNum_of req) totalCount
                            (Math_ceil_div totalCount (limitNum_of req))))
                   None))).
Proof. reflexivity. Qed.

(** C7, counterexample.  The limit "5abc" does not denote a positive
    integer, yet the listing is served (status 200, limit 5) after two
    store calls. *)
Lemma paging_validation_counterexample :
  denotes_positive_integer "5abc" = false /\
  fst (getLatestEvents clock_le (listing "5abc" "1") quiet)
    = Response 200
        (Envelope true None (Some (EventList []))
           (Some (PageInfo (Int 1) (Int 5) (Int 0) (Int 0))) None) /\
  calls (snd (getLatestEvents clock_le (listing "5abc" "1") quiet))
    = [FindSorted (Int 0) (Int 5); CountDocuments].
Proof. repeat split; vm_compute; reflexivity. Qed.

Lemma not_positive_refused (n : number) :
  not_positive n -> isNaN n || num_ltb n (Int 1) = true.
Proof.
  intros [-> | [-> | (z & -> & Hz)]]; [reflexivity | reflexivity |].
  simpl. now apply Z.ltb_lt.
Qed.

(** C7, as amended.  When [parseInt] reads no integer of at least one from
    the limit (it yields NaN or a number below one), or reads none from
    the page, the listing answers 400 and leaves the world as it was: no
    store call is made. *)
Theorem paging_validation (schedule_le : option value -> option value -> bool)
    (req : request) (w : world) :
  not_positive (limitNum_of req) \/ not_positive (pageNum_of req) ->
  exists msg : string,
    getLatestEvents schedule_le req w = (failure 400 msg, w) /\
    (msg = "Limit must be a positive integer" \/
     msg = "Page must be a positive integer").
Proof.
  intros H. rewrite getLatestEvents_paging. unfold catch_500, ret.
  destruct (isNaN (limitNum_of req) || num_ltb (limitNum_of req) (Int 1)) eqn:EL.
  - eexists; split; [reflexivity | now left].
  - destruct H as [H | H];
      [apply not_positive_refused in H; rewrite H in EL; discriminate EL|].
    rewrite (not_positive_refused _ H).
    eexists; split; [reflexivity | now right].
Qed.

(** X22.  Conversely, a limit and a page that [parseInt] reads as integers
    of at least one are never answered with 400: the listing goes on to
    the store, and answers 200, or 500 when the store fails. *)
Lemma paging_accepted (schedule_le : option value -> option value -> bool)
    (req : request) (w : world) (L P : Z) :
  limitNum_of req = Int L -> 1 <= L ->
  pageNum_of req = Int P -> 1 <= P ->
  status (fst (getLatestEvents schedule_le req w)) = 200%nat \/
  status (fst (getLatestEvents schedule_le req w)) = 500%nat.
Proof.
  intros HL HL1 HP HP1.
  rewrite getLatestEvents_paging, HL, HP. unfold catch_500, bind, ret. simpl.
  rewrite (proj2 (Z.ltb_ge L 1) HL1), (proj2 (Z.ltb_ge P 1) HP1).
  unfold getDB.
  destruct (db w) as [docs|] eqn:Hdb; [|right; reflexivity].
  unfold countDocuments, store_op. simpl.
  destruct (outage w) eqn:Hout; [right; reflexivity|].
  rewrite Hdb. unfold find_sorted, store_op. simpl. rewrite Hout.
  rewrite (proj2 (Z.ltb_ge ((P - 1) * L) 0)) by nia.
  left. reflexivity.
Qed.

Lemma paging_validation_witness :
  exists msg : string,
    getLatestEvents clock_le (listing "0" "1") quiet = (failure 400 msg, quiet) /\
    (msg = "Limit must be a positive integer" \/
     msg = "Page must be a positive integer").
Proof.
  apply paging_validation. left. right. right. exists 0.
  split; [reflexivity | lia].
Defined.

(** ** The page of the listing (C3) *)

(** The parsed limit and page of a request that gives them as decimal
    numerals within 2^53, and of a request that gives none. *)
Lemma paging_numerals (req : request) (L P : Z) :
  Z.abs L <= MAX_SAFE_INTEGER -> Z.abs P <= MAX_SAFE_INTEGER ->
  query req !! "limit" = Some (Z_to_string L) ->
  query req !! "page" = Some (Z_to_string P) ->
  limitNum_of req = Int L /\ pageNum_of req = Int P.
Proof.
  unfold MAX_SAFE_INTEGER. intros HLb HPb HL HP.
  unfold limitNum_of, pageNum_of. rewrite HL, HP.
  split; apply parseInt_numeral; lia.
Qed.

Lemma paging_defaults (req : request) :
  query req !! "limit" = None -> query req !! "page" = None ->
  limitNum_of req = Int 5 /\ pageNum_of req = Int 1.
Proof.
  intros HL HP. unfold limitNum_of, pageNum_of. rewrite HL, HP.
  split; reflexivity.
Qed.

Lemma ceil_div_bounds (N L : Z) :
  1 <= L -> (- ((- N) / L) - 1) * L < N <= - ((- N) / L) * L.
Proof.
  intros HL.
  pose proof (Z.div_mod (- N) L ltac:(lia)) as Hdm.
  pose proof (Z.mod_pos_bound (- N) L ltac:(lia)) as Hb.
  nia.
Qed.

(** A listing on a connected and available store. *)
Lemma getLatestEvents_served (schedule_le : option value -> option value -> bool)
    (req : request) (w : world) (docs : list doc) (L P : Z) :
  db w = Some docs -> outage w = None ->
  limitNum_of req = Int L -> 1 <= L ->
  pageNum_of req = Int P -> 1 <= P ->
  fst (getLatestEvents schedule_le req w)
    = Response 200
        (Envelope true None
           (Some (EventList
                    (take (Z.to_nat L)
                       (drop (Z.to_nat ((P - 1) * L))
                          (merge_sort (schedule_desc schedule_le) docs)))))
           (Some (PageInfo (Int P) (Int L) (Int (Z.of_nat (length docs)))
                    (Int (- ((- Z.of_nat (length docs)) / L)))))
           None) /\
  db (snd (getLatestEvents schedule_le req w)) = Some docs.
Proof.
  intros Hdb Hout HL HL1 HP HP1.
  rewrite getLatestEvents_paging, HL, HP. unfold catch_500, bind, ret.
  cbn [isNaN num_ltb num_sub num_mul orb].
  rewrite (proj2 (Z.ltb_ge L 1) HL1), (proj2 (Z.ltb_ge P 1) HP1).
  rewrite (getDB_connected w docs Hdb).
  unfold countDocuments. store_step docs Hdb Hout. cbn [fst snd].
  unfold find_sorted.
  rewrite (store_op_available _ _ (with_db docs (with_call CountDocuments w))
             docs eq_refl Hout).
  rewrite (proj2 (Z.ltb_ge ((P - 1) * L) 0)) by nia.
  rewrite (proj2 (Z.eqb_neq L 0)) by lia.
  rewrite (Z.abs_eq L) by lia.
  cbn [fst snd Math_ceil_div].
  rewrite (proj2 (Z.eqb_neq L 0)) by lia.
  split; reflexivity.
Qed.

(** The order in which a strongly sorted list holds its elements. *)
Lemma StronglySorted_lookup {A} (R : relation A) (l : list A) :
  StronglySorted R l ->
  forall (i j : nat) (x y : A),
    (i < j)%nat -> l !! i = Some x -> l !! j = Some y -> R x y.
Proof.
  induction 1 as [|a l Hl IH Ha]; intros i j x y Hij Hi Hj.
  - now rewrite lookup_nil in Hi.
  - destruct j as [|j]; [lia|]. cbn in Hj.
    destruct i as [|i]; cbn in Hi.
    + injection Hi as <-. rewrite Forall_forall in Ha.
      apply Ha. now apply (list_elem_of_lookup_2 l j).
    + apply (IH i j); [lia | assumption | assumption].
Qed.

(** The list the store sorts by a total preorder on schedules is in
    schedule-descending order. *)
Lemma sorted_descending (schedule_le : option value -> option value -> bool)
    (docs : list doc) :
  total_preorder schedule_le ->
  descending schedule_le (merge_sort (schedule_desc schedule_le) docs).
Proof.
  intros [Htot Htrans].
  assert (HT : Transitive (schedule_desc schedule_le)).
  { intros x y z Hxy Hyz. unfold schedule_desc in *. eauto. }
  assert (HC : Total (schedule_desc schedule_le)).
  { intros x y. unfold schedule_desc.
    destruct (Htot (y !! "schedule") (x !! "schedule")); auto. }
  pose proof (StronglySorted_merge_sort (schedule_desc schedule_le) docs) as Hs.
  intros i j di dj Hij Hi Hj.
  exact (StronglySorted_lookup _ _ Hs i j di dj Hij Hi Hj).
Qed.

(** The sample order is one a store can sort by. *)
Lemma clock_le_order : total_preorder clock_le.
Proof.
  split.
  - intros [[?|?|[x|?]]|] [[?|?|[y|?]]|]; cbn; auto.
    destruct (Z.leb_spec x y), (Z.leb_spec y x); auto; lia.
  - intros [[?|?|[x|?]]|] [[?|?|[y|?]]|] [[?|?|[z|?]]|]; cbn; auto; try discriminate.
    rewrite !Z.leb_le. lia.
Defined.

(** The documents of [shelf] as the store sorts them. *)
Lemma shelf_sorted : merge_sort (schedule_desc clock_le) shelf = [shelf_b; shelf_c; shelf_a].
Proof. vm_compute. reflexivity. Qed.

(** C3, counterexample.  The limit "9007199254740993" denotes a positive
    integer, but [parseInt] reads it as the nearest JavaScript number,
    which is 9007199254740992: the listing is served with that limit in
    its pagination, not with the limit of the request. *)
Lemma latest_page_counterexample :
  denotes_positive_integer "9007199254740993" = true /\
  read_digits None "9007199254740993" = Some 9007199254740993 /\
  fst (getLatestEvents clock_le (listing "9007199254740993" "1") stocked)
    = Response 200
        (Envelope true None (Some (EventList [shelf_b; shelf_c; shelf_a]))
           (Some (PageInfo (Int 1) (Int 9007199254740992) (Int 3) (Int 1))) None) /\
  Int 9007199254740992 <> Int 9007199254740993.
Proof.
  split; [vm_compute; reflexivity|]. split; [vm_compute; reflexivity|].
  split; [|discriminate].
  assert (HL : limitNum_of (listing "9007199254740993" "1") = Int 9007199254740992)
    by (vm_compute; reflexivity).
  assert (HP : pageNum_of (listing "9007199254740993" "1") = Int 1)
    by (vm_compute; reflexivity).
  rewrite (proj1 (getLatestEvents_served clock_le _ stocked shelf _ _
                    eq_refl eq_refl HL ltac:(lia) HP ltac:(lia))).
  rewrite shelf_sorted.
  change (Z.to_nat ((1 - 1) * 9007199254740992)) with 0%nat.
  rewrite drop_0, take_ge by (cbn [length]; lia).
  reflexivity.
Qed.

(** C3, as amended.  With the store connected and available, a listing
    whose limit [parseInt] reads as the integer L >= 1 and whose page as
    P >= 1, with L, (P - 1) * L and the number N of documents within
    2^53 - 1 (where the difference, the product and the quotient the
    handler computes are exact in JavaScript), answers 200 with the
    documents that follow the first (P - 1) * L of the collection in
    schedule-descending order, at most L of them, and with the pagination
    currentPage = P, limit = L, totalEvents = N, totalPages = T where T is
    the ceiling of N / L.  The order is a rearrangement of the collection
    in which, when the store sorts by a total preorder, the schedule of
    each document is at least that of every document after it; the
    collection is left as it was. *)
Theorem latest_page (schedule_le : option value -> option value -> bool)
    (req : request) (w : world) (docs : list doc) (L P : Z) :
  db w = Some docs -> outage w = None ->
  limitNum_of req = Int L -> 1 <= L ->
  pageNum_of req = Int P -> 1 <= P ->
  L <= MAX_SAFE_INTEGER -> (P - 1) * L <= MAX_SAFE_INTEGER ->
  Z.of_nat (length docs) <= MAX_SAFE_INTEGER ->
  let N := Z.of_nat (length docs) in
  exists (ordered : list doc) (T : Z),
    ordered ≡ₚ docs /\
    (total_preorder schedule_le -> descending schedule_le ordered) /\
    fst (getLatestEvents schedule_le req w)
      = Response 200
          (Envelope true None
             (Some (EventList (take (Z.to_nat L) (drop (Z.to_nat ((P - 1) * L)) ordered))))
             (Some (PageInfo (Int P) (Int L) (Int N) (Int T))) None) /\
    (T - 1) * L < N <= T * L /\
    (length (take (Z.to_nat L) (drop (Z.to_nat ((P - 1) * L)) ordered)) <= Z.to_nat L)%nat /\
    db (snd (getLatestEvents schedule_le req w)) = Some docs.
Proof.
  intros Hdb Hout HL HL1 HP HP1 _ _ _ N.
  destruct (getLatestEvents_served schedule_le req w docs L P Hdb Hout HL HL1 HP HP1)
    as [Hres Hkeep].
  exists (merge_sort (schedule_desc schedule_le) docs), (- ((- N) / L)).
  split; [apply merge_sort_Permutation|].
  split; [apply sorted_descending|].
  split; [exact Hres|].
  split; [apply ceil_div_bounds; exact HL1|].
  split; [rewrite length_take; lia | exact Hkeep].
Qed.

Lemma latest_page_witness :
  exists (ordered : list doc) (T : Z),
    ordered ≡ₚ shelf /\
    descending clock_le ordered /\
    fst (getLatestEvents clock_le (listing "2" "2") stocked)
      = Response 200
          (Envelope true None (Some (EventList (take 2 (drop 2 ordered))))
             (Some (PageInfo (Int 2) (Int 2) (Int 3) (Int T))) None) /\
    (T - 1) * 2 < 3 <= T * 2.
Proof.
  destruct (latest_page clock_le (listing "2" "2") stocked shelf 2 2
              eq_refl eq_refl ltac:(vm_compute; reflexivity) ltac:(lia)
              ltac:(vm_compute; reflexivity) ltac:(lia)
              ltac:(vm_compute; discriminate) ltac:(vm_compute; discriminate)
              ltac:(vm_compute; discriminate))
    as (ordered & T & Hperm & Hdesc & Hres & Hceil & _).
  exists ordered, T.
  split; [exact Hperm|]. split; [exact (Hdesc clock_le_order)|].
  split; [exact Hres | exact Hceil].
Defined.

(** The two pages of two documents of [shelf]: the instants 30 and 20, then
    the instant 10, out of three documents on two pages. *)
Example latest_pages_of_shelf :
  fst (getLatestEvents clock_le (listing "2" "1") stocked)
    = Response 200
        (Envelope true None (Some (EventList [shelf_b; shelf_c]))
           (Some (PageInfo (Int 1) (Int 2) (Int 3) (Int 2))) None) /\
  fst (getLatestEvents clock_le (listing "2" "2") stocked)
    = Response 200
        (Envelope true None (Some (EventList [shelf_a]))
           (Some (PageInfo (Int 2) (Int 2) (Int 3) (Int 2))) None).
Proof. split; vm_compute; reflexivity. Qed.

(** ** Creation (C2, C9) *)

(** A creation with a truthy name, on a connected and available store
    that does not hold the generated key yet, answers 201 with that key
    and appends the document. *)
Lemma createEvent_created (req : request) (b : body) (w : world) (docs : list doc) :
  req_body req = Some b -> truthy (b !! "name") = true ->
  db w = Some docs -> outage w = None ->
  existsb (has_id (pkgen w (issued w))) docs = false ->
  fst (createEvent req w)
    = Response 201
        (Envelope true (Some "Event created successfully")
           (Some (InsertedId (pkgen w (issued w)))) None None) /\
  db (snd (createEvent req w)) = Some (docs ++ [created_doc b w]) /\
  outage (snd (createEvent req w)) = None.
Proof.
  intros Hb Hname Hdb Hout Hfresh.
  unfold created_doc, schedule_of.
  unfold createEvent, catch_500, bind, ret. rewrite Hb, Hname. cbn [negb].
  destruct (b !! "schedule") as [s|] eqn:Hs;
    [destruct (truthy (Some s)) eqn:Ht|];
    unfold new_Date;
    match goal with
    | |- context [getDB ?w0] => rewrite (getDB_connected w0 docs Hdb)
    end;
    unfold insertOne; store_step docs Hdb Hout;
    cbn [fst snd pkgen issued with_issue with_read reads timeline];
    rewrite Hfresh;
    cbn [fst snd db with_db outage with_call with_issue with_read Nat.add];
    (split; [reflexivity | split; [reflexivity | exact Hout]]).
Qed.

(** C2, counterexample.  On a clock that advances between two readings,
    an event created from a name alone is stored with [createdAt] one
    millisecond before [updatedAt]: the two are read from the clock
    separately. *)
Lemma create_with_name_only_counterexample :
  let w1 := snd (createEvent (post {["name" := JStr "Launch"]}) quiet) in
  stored_field w1 "64f5a6c1e987654321fedcb0" "createdAt"
    = Some (VDate (Clock 1700000000001)) /\
  stored_field w1 "64f5a6c1e987654321fedcb0" "updatedAt"
    = Some (VDate (Clock 1700000000002)) /\
  stored_field w1 "64f5a6c1e987654321fedcb0" "createdAt"
    <> stored_field w1 "64f5a6c1e987654321fedcb0" "updatedAt".
Proof.
  assert (H1 : stored_field (snd (createEvent (post {["name" := JStr "Launch"]}) quiet))
                 "64f5a6c1e987654321fedcb0" "createdAt"
               = Some (VDate (Clock 1700000000001))) by (vm_compute; reflexivity).
  assert (H2 : stored_field (snd (createEvent (post {["name" := JStr "Launch"]}) quiet))
                 "64f5a6c1e987654321fedcb0" "updatedAt"
               = Some (VDate (Clock 1700000000002))) by (vm_compute; reflexivity).
  cbv zeta. rewrite H1, H2. repeat split. discriminate.
Qed.

(** C2, as amended.  A Create request whose body holds only a truthy name,
    on a connected and available store that does not hold the generated
    key yet, is answered with 201 and appends one document whose type is
    "event", tagline the empty string, attendees the empty array, rigor
    rank 0 and files { image: null }; its [createdAt] and [updatedAt] are
    the second and the third clock reading of the request (the first one
    is the schedule), equal exactly when the clock shows the same instant
    at both. *)
Theorem create_with_name_only (req : request) (w : world) (docs : list doc)
    (name : json) :
  req_body req = Some {["name" := name]} -> truthy (Some name) = true ->
  db w = Some docs -> outage w = None ->
  existsb (has_id (pkgen w (issued w))) docs = false ->
  exists d : doc,
    status (fst (createEvent req w)) = 201%nat /\
    db (snd (createEvent req w)) = Some (docs ++ [d]) /\
    d !! "type" = Some (VJson (JStr "event")) /\
    d !! "name" = Some (VJson name) /\
    d !! "tagline" = Some (VJson (JStr "")) /\
    d !! "attendees" = Some (VJson (JArr [])) /\
    d !! "rigor_rank" = Some (VJson (JNum (Int 0))) /\
    d !! "files" = Some (VJson (JObj [("image", JNull)])) /\
    d !! "schedule" = Some (VDate (Clock (timeline w (reads w)))) /\
    d !! "createdAt" = Some (VDate (Clock (timeline w (S (reads w))))) /\
    d !! "updatedAt" = Some (VDate (Clock (timeline w (S (S (reads w)))))) /\
    (d !! "createdAt" = d !! "updatedAt" <->
       timeline w (S (reads w)) = timeline w (S (S (reads w)))).
Proof.
  intros Hbody Hname Hdb Hout Hfresh.
  assert (Hn : truthy (({["name" := name]} : body) !! "name") = true)
    by (rewrite lookup_singleton_eq; exact Hname).
  destruct (createEvent_created req _ w docs Hbody Hn Hdb Hout Hfresh)
    as (Hres & Hdocs & _).
  exists (created_doc {["name" := name]} w).
  rewrite Hres, Hdocs.
  unfold created_doc, schedule_of.
  rewrite (lookup_singleton_ne "name" "schedule") by discriminate.
  assert (Hc : forall (b : body) s c u,
             <["_id" := VOid (pkgen w (issued w))]> (eventDocument b s c u)
               !! "createdAt" = Some (VDate c)) by reflexivity.
  assert (Hu : forall (b : body) s c u,
             <["_id" := VOid (pkgen w (issued w))]> (eventDocument b s c u)
               !! "updatedAt" = Some (VDate u)) by reflexivity.
  rewrite Hc, Hu.
  repeat split; try reflexivity.
  - intros H. injection H as H. exact H.
  - simpl. intros H. now rewrite H.
Qed.

Lemma create_with_name_only_witness :
  exists d : doc,
    db (snd (createEvent (post {["name" := JStr "Launch"]}) quiet)) = Some ([] ++ [d]) /\
    d !! "tagline" = Some (VJson (JStr "")) /\
    d !! "rigor_rank" = Some (VJson (JNum (Int 0))).
Proof.
  destruct (create_with_name_only (post {["name" := JStr "Launch"]}) quiet []
              (JStr "Launch") eq_refl eq_refl eq_refl eq_refl eq_refl)
    as (d & _ & Hd & _ & _ & Ht & _ & Hr & _).
  exists d. split; [exact Hd | split; [exact Ht | exact Hr]].
Defined.



Lemma valid_key_nonempty (key : string) :
  ObjectId_isValid key = true -> missing (Some key) = false.
Proof. destruct key; [discriminate | reflexivity]. Qed.






(** ** Update (C6, C10) *)

Lemma set_fields_lookup (fields d : doc) (k : string) :
  set_fields fields d !! k
    = match fields !! k with Some v => Some v | None => d !! k end.
Proof.
  unfold set_fields. rewrite lookup_union.
  destruct (fields !! k), (d !! k); reflexivity.
Qed.

(** The update set, field by field. *)
Lemma updateFields_lookup (b : body) (now : date) (k : string) :
  updateFields b now !! k =
    if decide (k = "updatedAt") then Some (VDate now)
    else if decide (k = "rigor_rank")
    then (fun r => VJson (JNum (parseInt (Some r)))) <$> b !! k
    else if decide (k = "schedule")
    then (fun s => if truthy (Some s) then VDate (DateOf s) else VJson s) <$> b !! k
    else if decide (k = "_id" \/ k = "type") then None
    else VJson <$> b !! k.
Proof.
  unfold updateFields.
  destruct (decide (k = "updatedAt")) as [->|Hu]; [apply lookup_insert_eq|].
  rewrite lookup_insert_ne by congruence.
  assert (Hrank : delete "type" (delete "_id" b) !! "rigor_rank" = b !! "rigor_rank")
    by (rewrite !lookup_delete_ne by discriminate; reflexivity).
  assert (Hsched : delete "type" (delete "_id" b) !! "schedule" = b !! "schedule")
    by (rewrite !lookup_delete_ne by discriminate; reflexivity).
  rewrite Hrank, Hsched.
  destruct (decide (k = "rigor_rank")) as [->|Hr].
  { destruct (b !! "rigor_rank") as [r|] eqn:Er; simpl.
    - apply lookup_insert_eq.
    - destruct (b !! "schedule") as [s|]; [destruct (truthy (Some s))|];
        rewrite ?lookup_insert_ne by discriminate;
        rewrite lookup_fmap, !lookup_delete_ne by discriminate;
        now rewrite Er. }
  assert (Hskip : forall m : doc,
             match b !! "rigor_rank" with
             | Some r => <["rigor_rank" := VJson (JNum (parseInt (Some r)))]> m
             | None => m
             end !! k = m !! k).
  { intros m. destruct (b !! "rigor_rank"); [|reflexivity].
    now rewrite lookup_insert_ne by congruence. }
  rewrite Hskip.
  destruct (decide (k = "schedule")) as [->|Hs].
  { destruct (b !! "schedule") as [s|] eqn:Es; simpl.
    - destruct (truthy (Some s)); [apply lookup_insert_eq|].
      rewrite lookup_fmap, !lookup_delete_ne by discriminate. now rewrite Es.
    - rewrite lookup_fmap, !lookup_delete_ne by discriminate. now rewrite Es. }
  assert (Hskip' :
            match b !! "schedule" with
            | Some s =>
                if truthy (Some s)
                then <["schedule" := VDate (DateOf s)]>
                       (VJson <$> delete "type" (delete "_id" b))
                else VJson <$> delete "type" (delete "_id" b)
            | None => VJson <$> delete "type" (delete "_id" b)
            end !! k = (VJson <$> delete "type" (delete "_id" b)) !! k).
  { destruct (b !! "schedule") as [s|]; [|reflexivity].
    destruct (truthy (Some s)); [|reflexivity].
    now rewrite lookup_insert_ne by congruence. }
  rewrite Hskip', lookup_fmap.
  destruct (decide (k = "_id" \/ k = "type")) as [[-> | ->]|Hn].
  - rewrite lookup_delete_ne by discriminate. now rewrite lookup_delete_eq.
  - now rewrite lookup_delete_eq.
  - rewrite !lookup_delete_ne by (intros <-; apply Hn; auto). reflexivity.
Qed.

Lemma update_first_found (key : string) (fields : doc)
    (before after : list doc) (d : doc) :
  existsb (has_id key) before = false -> has_id key d = true ->
  update_first key fields (before ++ d :: after)
    = (UpdateResult 1 (if bool_decide (set_fields fields d = d) then 0 else 1),
       before ++ set_fields fields d :: after).
Proof.
  intros Habs Hd. induction before as [|x rest IH]; simpl.
  - now rewrite Hd.
  - simpl in Habs. destruct (has_id key x); [discriminate|].
    now rewrite (IH Habs).
Qed.

(** An update of a stored document, on a connected and available store:
    the answer and the world it leaves. *)
Lemma updateEvent_updated (req : request) (b : body) (w : world) (id : string)
    (before after : list doc) (d : doc) :
  params req !! "id" = Some id -> ObjectId_isValid id = true ->
  req_body req = Some b -> b <> ∅ ->
  db w = Some (before ++ d :: after) -> outage w = None ->
  existsb (has_id (new_ObjectId id)) before = false ->
  has_id (new_ObjectId id) d = true ->
  let fields := updateFields b (Clock (timeline w (reads w))) in
  updateEvent req w
    = (Response 200
         (Envelope true (Some "Event updated successfully")
            (Some (ModifiedCount
                     (if bool_decide (set_fields fields d = d) then 0 else 1)))
            None None),
       with_db (before ++ set_fields fields d :: after)
         (with_call (UpdateOne (new_ObjectId id) fields) (with_read w))).
Proof.
  intros Hp Hok Hb Hbody Hdb Hout Habs Hd fields.
  run_handler. rewrite Hp, (valid_key_nonempty id Hok). simpl.
  rewrite Hok. simpl. rewrite Hb.
  rewrite bool_decide_eq_false_2
    by (intros Hz; apply Hbody; now apply map_size_empty_inv).
  unfold new_Date.
  rewrite (getDB_connected (with_read w) _ Hdb).
  unfold updateOne. store_step (before ++ d :: after) Hdb Hout.
  rewrite (update_first_found _ _ _ _ _ Habs Hd). reflexivity.
Qed.







(** C10.  An Update with a well-formed identifier of a stored document,
    on a connected and available store, whose body is not empty and has
    no other key than [_id] and [type], passes the emptiness check (made
    before these keys are dropped) and is answered with 200; the update
    set handed to the store holds [updatedAt] alone, and the document is
    replaced by itself with [updatedAt] set to the clock reading. *)
Theorem update_with_reserved_keys_only (req : request) (b : body) (w : world)
    (id : string) (before after : list doc) (d : doc) :
  let now := Clock (timeline w (reads w)) in
  params req !! "id" = Some id -> ObjectId_isValid id = true ->
  req_body req = Some b ->
  b <> ∅ -> (forall k, is_Some (b !! k) -> k = "_id" \/ k = "type") ->
  db w = Some (before ++ d :: after) -> outage w = None ->
  existsb (has_id (new_ObjectId id)) before = false ->
  has_id (new_ObjectId id) d = true ->
  (size b =? 0)%nat = false /\
  status (fst (updateEvent req w)) = 200%nat /\
  success (json_of (fst (updateEvent req w))) = true /\
  updateFields b now = {["updatedAt" := VDate now]} /\
  calls (snd (updateEvent req w))
    = UpdateOne (new_ObjectId id) {["updatedAt" := VDate now]} :: calls w /\
  db (snd (updateEvent req w))
    = Some (before ++ <["updatedAt" := VDate now]> d :: after).
Proof.
  intros now Hp Hok Hb Hbody Hkeys Hdb Hout Habs Hd.
  assert (Hset : updateFields b now = {["updatedAt" := VDate now]}).
  { apply map_eq. intros k. rewrite updateFields_lookup.
    destruct (decide (k = "updatedAt")) as [->|Hu];
      [now rewrite lookup_singleton_eq|].
    rewrite lookup_singleton_ne by congruence.
    destruct (b !! k) as [v|] eqn:Hk.
    - destruct (Hkeys k ltac:(rewrite Hk; eauto)) as [-> | ->]; reflexivity.
    - repeat case_decide; reflexivity. }
  split.
  { apply Nat.eqb_neq. intros Hz. apply Hbody. now apply map_size_empty_inv. }
  rewrite (updateEvent_updated req b w id before after d Hp Hok Hb Hbody Hdb Hout Habs Hd).
  fold now. rewrite Hset. simpl.
  repeat split; try reflexivity.
  unfold set_fields. now rewrite <- insert_union_singleton_l.
Qed.

Lemma retype_nonempty : retype <> ∅.
Proof.
  intros H. apply (f_equal (fun m : body => m !! "type")) in H. discriminate H.
Defined.

Lemma retype_reserved (k : string) :
  is_Some (retype !! k) -> k = "_id" \/ k = "type".
Proof.
  intros Hk.
  destruct (decide (k = "_id")) as [|Hi]; [now left|].
  destruct (decide (k = "type")) as [|Ht]; [now right|].
  exfalso. unfold retype in Hk. cbn [list_to_map foldr uncurry fst snd] in Hk.
  rewrite !lookup_insert_ne, lookup_empty in Hk by congruence.
  now destruct Hk.
Defined.

Lemma update_with_reserved_keys_only_witness :
  status (fst (updateEvent (by_path "64f5a6c1e987654321fedc0a" retype) stocked))
    = 200%nat /\
  db (snd (updateEvent (by_path "64f5a6c1e987654321fedc0a" retype) stocked))
    = Some ([] ++ <["updatedAt" := VDate (Clock 1700000000000)]> shelf_a
              :: [shelf_b; shelf_c]).
Proof.
  destruct (update_with_reserved_keys_only
              (by_path "64f5a6c1e987654321fedc0a" retype) retype stocked
              "64f5a6c1e987654321fedc0a" [] [shelf_b; shelf_c] shelf_a
              eq_refl eq_refl eq_refl retype_nonempty retype_reserved
              eq_refl eq_refl eq_refl eq_refl)
    as (_ & Hst & _ & _ & _ & Hdb).
  split; [exact Hst | exact Hdb].
Defined.

(** ** All five handlers: what a response says about the world *)

(** Splits the run of a handler into its paths, innermost test first. *)
Ltac atomic x :=
  lazymatch x with
  | context [match _ with _ => _ end] => fail
  | _ => idtac
  end.

Ltac crack :=
  unfold getEventById, getLatestEvents, createEvent, updateEvent, deleteEvent,
    catch_500, bind, ret, throw, getDB, new_Date, findOne, countDocuments,
    find_sorted, insertOne, updateOne, deleteOne, store_op;
  repeat (cbn [NODE_ENV db outage calls timeline reads pkgen issued console
               with_db with_call with_read with_issue with_console fst snd];
          first
            [ match goal with
              | H : ?x = _ |- context [match ?x with _ => _ end] => rewrite H
              end
            | match goal with
              | |- context [match ?x with _ => _ end] => atomic x; destruct x eqn:?
              end ]).

(** Names the property of the goal, so that the run is split once. *)
Ltac hide_goal run :=
  pattern run;
  match goal with |- ?P _ => let Q := fresh "Q" in set (Q := P) end.

(** Shows the property again, at the end of a path. *)
Ltac show_goal :=
  match goal with Q := _ |- _ => subst Q end;
  cbn [NODE_ENV db outage calls timeline reads pkgen issued console
       with_db with_call with_read with_issue with_console fst snd
       status json_of success message data pagination error failure].

(** One goal for each of the five handlers. *)
Ltac each_handler H :=
  unfold handlers in H; rewrite !elem_of_cons in H;
  destruct H as [-> | [-> | [-> | [-> | [-> | H]]]]];
  [ | | | | | now apply elem_of_nil in H].

Lemma in_handlers (schedule_le : option value -> option value -> bool) :
  getEventById ∈ handlers schedule_le /\
  getLatestEvents schedule_le ∈ handlers schedule_le /\
  createEvent ∈ handlers schedule_le /\
  updateEvent ∈ handlers schedule_le /\
  deleteEvent ∈ handlers schedule_le.
Proof. unfold handlers. rewrite !elem_of_cons. auto 10. Qed.

Lemma update_first_unmatched (key : string) (fields : doc) (docs : list doc) :
  matchedCount (fst (update_first key fields docs)) = 0%nat ->
  snd (update_first key fields docs) = docs.
Proof.
  induction docs as [|d rest IH]; simpl; [reflexivity|].
  destruct (has_id key d); simpl; [discriminate|].
  destruct (update_first key fields rest) as [r rest']. simpl in *.
  intros H. now rewrite (IH H).
Qed.

Lemma delete_first_unmatched (key : string) (docs : list doc) :
  fst (delete_first key docs) = 0%nat -> snd (delete_first key docs) = docs.
Proof.
  induction docs as [|d rest IH]; simpl; [reflexivity|].
  destruct (has_id key d); simpl; [discriminate|].
  destruct (delete_first key rest) as [n rest']. simpl in *.
  intros H. now rewrite (IH H).
Qed.

(** Replaces the result of an update or a deletion that matched nothing by
    the collection it started from. *)
Ltac unmatched :=
  repeat match goal with
  | H : update_first ?k ?f ?l = (?u, ?l1), E : (matchedCount ?u =? 0)%nat = true |- _ =>
      let F := fresh in
      assert (F : l1 = l)
        by (apply Nat.eqb_eq in E;
            pose proof (update_first_unmatched k f l) as F;
            rewrite H in F; exact (F E));
      subst l1; clear H
  | H : delete_first ?k ?l = (?n, ?l1), E : (?n =? 0)%nat = true |- _ =>
      let F := fresh in
      assert (F : l1 = l)
        by (apply Nat.eqb_eq in E;
            pose proof (delete_first_unmatched k l) as F;
            rewrite H in F; exact (F E));
      subst l1; clear H
  end.

(** X1.  A response of any of the five handlers that says
    [success: false] comes with an unchanged collection: nothing was
    inserted, updated or deleted. *)
Theorem failure_leaves_collection
    (schedule_le : option value -> option value -> bool)
    (h : request -> handler) (req : request) (w : world) :
  h ∈ handlers schedule_le ->
  success (json_of (fst (h req w))) = false ->
  db (snd (h req w)) = db w.
Proof.
  intros H. hide_goal (h req w). each_handler H; crack; show_goal;
    intros; unmatched; first [reflexivity | assumption | discriminate].
Qed.

Lemma failure_leaves_collection_witness :
  db (snd (deleteEvent (by_path "64f5a6c1e987654321fedcba" ∅) stocked)) = db stocked.
Proof.
  apply (failure_leaves_collection clock_le deleteEvent).
  - apply in_handlers.
  - vm_compute. reflexivity.
Defined.

(** X2.  A response of any of the five handlers with status 400 comes with
    an unchanged world: no store call was made, the clock was not read, no
    key was generated and nothing was printed. *)
Theorem bad_request_touches_nothing
    (schedule_le : option value -> option value -> bool)
    (h : request -> handler) (req : request) (w : world) :
  h ∈ handlers schedule_le ->
  status (fst (h req w)) = 400%nat -> snd (h req w) = w.
Proof.
  intros H. hide_goal (h req w). each_handler H; crack; show_goal;
    intros Hs; first [reflexivity | discriminate Hs].
Qed.

Lemma bad_request_touches_nothing_witness :
  snd (updateEvent (by_path "not-a-key" rename) stocked) = stocked.
Proof.
  apply (bad_request_touches_nothing clock_le updateEvent).
  - apply in_handlers.
  - vm_compute. reflexivity.
Defined.

(** X3.  Each of the five handlers prints one line with console.error when
    it answers 500, and nothing otherwise. *)
Theorem logged_exactly_on_500
    (schedule_le : option value -> option value -> bool)
    (h : request -> handler) (req : request) (w : world) :
  h ∈ handlers schedule_le ->
  (status (fst (h req w)) = 500%nat /\
   exists line, console (snd (h req w)) = line :: console w) \/
  (status (fst (h req w)) <> 500%nat /\ console (snd (h req w)) = console w).
Proof.
  intros H. hide_goal (h req w). each_handler H; crack; show_goal;
    solve [left; split; [reflexivity | eexists; reflexivity]
          | right; split; [discriminate | reflexivity]].
Qed.

Lemma logged_exactly_on_500_witness :
  (status (fst (createEvent (post launch) down)) = 500%nat /\
   exists line, console (snd (createEvent (post launch) down)) = line :: console down) \/
  (status (fst (createEvent (post launch) down)) <> 500%nat /\
   console (snd (createEvent (post launch) down)) = console down).
Proof.
  apply (logged_exactly_on_500 clock_le createEvent). apply in_handlers.
Defined.

(** X4.  Every response of the five handlers has one of three shapes:
    status 200 or 201 with [success: true] and no error detail; status 400
    or 404 with [success: false], a message and nothing else; or status 500
    with the message "Internal server error" and the error detail. *)
Theorem envelope_shape
    (schedule_le : option value -> option value -> bool)
    (h : request -> handler) (req : request) (w : world) :
  h ∈ handlers schedule_le ->
  ((status (fst (h req w)) = 200%nat \/ status (fst (h req w)) = 201%nat) /\
   success (json_of (fst (h req w))) = true /\
   error (json_of (fst (h req w))) = None) \/
  ((status (fst (h req w)) = 400%nat \/ status (fst (h req w)) = 404%nat) /\
   exists msg, fst (h req w) = failure (status (fst (h req w))) msg) \/
  (exists msg, fst (h req w) = internal_error msg).
Proof.
  intros H. hide_goal (h req w). each_handler H; crack; show_goal;
    lazymatch goal with
    | |- (200%nat = _ \/ _) /\ _ \/ _ =>
        left; split; [left; reflexivity | split; reflexivity]
    | |- (201%nat = _ \/ _) /\ _ \/ _ =>
        left; split; [right; reflexivity | split; reflexivity]
    | |- (400%nat = _ \/ _) /\ _ \/ _ =>
        right; left; split; [left; reflexivity | eexists; reflexivity]
    | |- (404%nat = _ \/ _) /\ _ \/ _ =>
        right; left; split; [right; reflexivity | eexists; reflexivity]
    | |- _ => right; right; eexists; reflexivity
    end.
Qed.

Lemma envelope_shape_witness :
  ((status (fst (getEventById (by_query "64f5a6c1e987654321fedc0a") stocked)) = 200%nat \/
    status (fst (getEventById (by_query "64f5a6c1e987654321fedc0a") stocked)) = 201%nat) /\
   success (json_of (fst (getEventById (by_query "64f5a6c1e987654321fedc0a") stocked)))
     = true /\
   error (json_of (fst (getEventById (by_query "64f5a6c1e987654321fedc0a") stocked)))
     = None) \/
  ((status (fst (getEventById (by_query "64f5a6c1e987654321fedc0a") stocked)) = 400%nat \/
    status (fst (getEventById (by_query "64f5a6c1e987654321fedc0a") stocked)) = 404%nat) /\
   exists msg,
     fst (getEventById (by_query "64f5a6c1e987654321fedc0a") stocked)
       = failure (status (fst (getEventById (by_query "64f5a6c1e987654321fedc0a") stocked)))
           msg) \/
  (exists msg,
     fst (getEventById (by_query "64f5a6c1e987654321fedc0a") stocked) = internal_error msg).
Proof.
  apply (envelope_shape clock_le getEventById). apply in_handlers.
Defined.




(** A request without a body, to Create and to Update on a store whose
    [db] is null: the answer is the TypeError, not the error of [getDB]. *)
Example no_body_before_getDB :
  fst (createEvent bare_post unconnected) = internal_error destructure_undefined /\
  fst (updateEvent (bare_put "64f5a6c1e987654321fedcba") unconnected)
    = internal_error keys_of_undefined.
Proof. split; reflexivity. Qed.



(** During the outage of [down], an Update with a body is answered with
    the error of the store, an Update without a body with the TypeError. *)
Example outage_of_down :
  fst (updateEvent (by_path "64f5a6c1e987654321fedc0a" rename) down)
    = internal_error "connect ECONNREFUSED 127.0.0.1:27017" /\
  fst (updateEvent (bare_put "64f5a6c1e987654321fedc0a") down)
    = internal_error keys_of_undefined /\
  calls (snd (updateEvent (bare_put "64f5a6c1e987654321fedc0a") down)) = [].
Proof. repeat split. Qed.

(** X7.  The lookup, the listing and the route of GET /events change
    nothing but the record of store calls and the console: the collection,
    the clock readings and the generated keys are as before, whatever the
    request and the world. *)
Theorem reads_change_nothing (schedule_le : option value -> option value -> bool)
    (req : request) (w : world) :
  same_but_logs w (snd (getEventById req w)) /\
  same_but_logs w (snd (getLatestEvents schedule_le req w)) /\
  same_but_logs w (snd (get_events schedule_le req w)).
Proof.
  assert (Hw : w = World (NODE_ENV w) (db w) (outage w) (calls w) (timeline w)
                 (reads w) (pkgen w) (issued w) (console w)) by now destruct w.
  assert (Hget : same_but_logs w (snd (getEventById req w))).
  { unfold same_but_logs. hide_goal (getEventById req w). crack; show_goal;
      first [exact Hw | unfold with_db, with_call, with_console; cbn; congruence]. }
  assert (Hlist : same_but_logs w (snd (getLatestEvents schedule_le req w))).
  { unfold same_but_logs. hide_goal (getLatestEvents schedule_le req w).
    crack; show_goal;
      first [exact Hw | unfold with_db, with_call, with_console; cbn; congruence]. }
  split; [exact Hget|]. split; [exact Hlist|].
  unfold get_events. now destruct (negb (missing (query req !! "id"))).
Qed.

(** ** Invariants of the collection *)

(** The collection after a request is the collection before, or it has one
    new document at its end, under a key that was not there, or its first
    document of some key has the update set merged in, or it is without
    its first document of some key. *)
Lemma collection_after (schedule_le : option value -> option value -> bool)
    (h : request -> handler) (req : request) (w : world) (docs : list doc) :
  h ∈ handlers schedule_le -> db w = Some docs ->
  db (snd (h req w)) = Some docs \/
  (exists b key schedule createdAt updatedAt,
     existsb (has_id key) docs = false /\
     db (snd (h req w))
       = Some (docs ++ [<["_id" := VOid key]>
                          (eventDocument b schedule createdAt updatedAt)])) \/
  (exists b key now,
     db (snd (h req w))
       = Some (snd (update_first key (updateFields b now) docs))) \/
  (exists key, db (snd (h req w)) = Some (snd (delete_first key docs))).
Proof.
  intros H Hdb. hide_goal (h req w). each_handler H; crack; show_goal; auto.
  all: try solve [right; left; eauto 10].
  all: try (right; right; left; do 3 eexists;
            match goal with H : update_first _ _ _ = _ |- _ => now rewrite H end).
  all: try (right; right; right; eexists;
            match goal with H : delete_first _ _ = _ |- _ => now rewrite H end).
Qed.

Lemma absent_key (key : string) (docs : list doc) :
  existsb (has_id key) docs = false -> Some (VOid key) ∉ map key_of docs.
Proof.
  induction docs as [|d rest IH]; simpl; [intros _; apply not_elem_of_nil|].
  intros H. apply orb_false_elim in H as [Hd Hrest].
  rewrite not_elem_of_cons. split; [|now apply IH].
  unfold has_id in Hd. apply bool_decide_eq_false in Hd.
  unfold key_of. congruence.
Qed.

Lemma update_first_keys (key : string) (fields : doc) (docs : list doc) :
  fields !! "_id" = None ->
  map key_of (snd (update_first key fields docs)) = map key_of docs.
Proof.
  intros Hid. induction docs as [|d rest IH]; simpl; [reflexivity|].
  destruct (has_id key d); simpl.
  - unfold key_of at 1. now rewrite set_fields_lookup, Hid.
  - destruct (update_first key fields rest) as [r rest']. simpl in *.
    now rewrite IH.
Qed.

Lemma delete_first_keys (key : string) (docs : list doc) :
  NoDup (map key_of docs) -> NoDup (map key_of (snd (delete_first key docs))).
Proof.
  induction docs as [|d rest IH]; simpl; [auto|].
  intros Hnd. apply NoDup_cons in Hnd as [Hd Hrest].
  destruct (has_id key d); simpl; [exact Hrest|].
  specialize (IH Hrest).
  assert (Hsub : forall x, x ∈ map key_of (snd (delete_first key rest)) ->
                           x ∈ map key_of rest).
  { clear. induction rest as [|e rest IH]; simpl; [auto|].
    destruct (has_id key e); simpl.
    - intros x Hx. apply elem_of_cons. now right.
    - destruct (delete_first key rest) as [n rest']. simpl in *.
      intros x Hx. apply elem_of_cons in Hx as [-> | Hx];
        apply elem_of_cons; [now left | right; apply IH, Hx]. }
  destruct (delete_first key rest) as [n rest']. simpl in *.
  apply NoDup_cons. split; [intros Hin; apply Hd, Hsub, Hin | exact IH].
Qed.

(** X8.  No request makes two documents share a key: when the keys of the
    collection are pairwise different before a request to any of the five
    handlers, they are after it. *)
Theorem keys_stay_unique
    (schedule_le : option value -> option value -> bool)
    (h : request -> handler) (req : request) (w : world) (docs : list doc) :
  h ∈ handlers schedule_le -> db w = Some docs -> unique_keys docs ->
  exists docs', db (snd (h req w)) = Some docs' /\ unique_keys docs'.
Proof.
  intros H Hdb Hu.
  destruct (collection_after schedule_le h req w docs H Hdb)
    as [E | [(b & key & s & c & u & Hfresh & E) | [(b & key & now & E) | (key & E)]]];
    rewrite E; eexists; (split; [reflexivity|]); unfold unique_keys in *.
  - exact Hu.
  - rewrite map_app. apply NoDup_app. split; [exact Hu|]. split.
    + intros x Hx Hin. simpl in Hin. apply list_elem_of_singleton in Hin.
      subst x. unfold key_of at 1 in Hx. rewrite lookup_insert_eq in Hx.
      exact (absent_key key docs Hfresh Hx).
    + simpl. apply NoDup_singleton.
  - rewrite update_first_keys; [exact Hu|].
    rewrite updateFields_lookup. reflexivity.
  - now apply delete_first_keys.
Qed.

Lemma shelf_unique : unique_keys shelf.
Proof.
  unfold unique_keys, shelf. cbn [map].
  change (key_of shelf_a) with (Some (VOid "64f5a6c1e987654321fedc0a")).
  change (key_of shelf_b) with (Some (VOid "64f5a6c1e987654321fedc0b")).
  change (key_of shelf_c) with (Some (VOid "64f5a6c1e987654321fedc0c")).
  rewrite !NoDup_cons, !not_elem_of_cons.
  repeat split; try discriminate; try apply not_elem_of_nil. apply NoDup_nil_2.
Qed.

Lemma keys_stay_unique_witness :
  exists docs',
    db (snd (createEvent (post launch) stocked)) = Some docs' /\ unique_keys docs'.
Proof.
  apply (keys_stay_unique clock_le createEvent (post launch) stocked shelf).
  - apply in_handlers.
  - reflexivity.
  - exact shelf_unique.
Defined.

Lemma update_first_Forall (P : doc -> Prop) (key : string) (fields : doc)
    (docs : list doc) :
  (forall d, P d -> P (set_fields fields d)) ->
  Forall P docs -> Forall P (snd (update_first key fields docs)).
Proof.
  intros Hset. induction 1 as [|d rest Hd Hrest IH]; simpl; [constructor|].
  destruct (has_id key d); simpl; [constructor; auto|].
  destruct (update_first key fields rest) as [r rest']. simpl in *.
  constructor; auto.
Qed.

Lemma delete_first_Forall (P : doc -> Prop) (key : string) (docs : list doc) :
  Forall P docs -> Forall P (snd (delete_first key docs)).
Proof.
  induction 1 as [|d rest Hd Hrest IH]; simpl; [constructor|].
  destruct (has_id key d); simpl; [exact Hrest|].
  destruct (delete_first key rest) as [n rest']. simpl in *.
  constructor; auto.
Qed.

Lemma inserted_is_event (key : string) (b : body) (s c u : date) :
  is_event (<["_id" := VOid key]> (eventDocument b s c u)).
Proof.
  split; [reflexivity|]. split; [eexists; apply lookup_insert_eq|].
  unfold event_fields. repeat (constructor; [eexists; reflexivity|]). constructor.
Qed.

Lemma updated_is_event (b : body) (now : date) (d : doc) :
  is_event d -> is_event (set_fields (updateFields b now) d).
Proof.
  intros (Hty & [key Hid] & Hall). split; [|split].
  - rewrite set_fields_lookup, updateFields_lookup. exact Hty.
  - exists key. rewrite set_fields_lookup, updateFields_lookup. exact Hid.
  - eapply Forall_impl; [exact Hall|]. intros k Hk. simpl in *.
    rewrite set_fields_lookup. destruct (updateFields b now !! k); eauto.
Qed.

(** X9.  A collection of events stays one: when every document is of type
    "event", stored under a store key and has all fifteen fields of an
    event before a request to any of the five handlers, the same holds
    after it.  Create stores such a document, and Update neither removes a
    field nor changes the type or the key. *)
Theorem events_stay_events
    (schedule_le : option value -> option value -> bool)
    (h : request -> handler) (req : request) (w : world) (docs : list doc) :
  h ∈ handlers schedule_le -> db w = Some docs -> Forall is_event docs ->
  exists docs', db (snd (h req w)) = Some docs' /\ Forall is_event docs'.
Proof.
  intros H Hdb Hall.
  destruct (collection_after schedule_le h req w docs H Hdb)
    as [E | [(b & key & s & c & u & Hfresh & E) | [(b & key & now & E) | (key & E)]]];
    rewrite E; eexists; (split; [reflexivity|]).
  - exact Hall.
  - apply Forall_app. split; [exact Hall|].
    constructor; [apply inserted_is_event | constructor].
  - apply update_first_Forall; [apply updated_is_event | exact Hall].
  - now apply delete_first_Forall.
Qed.

Lemma created_doc_is_event (b : body) (w : world) : is_event (created_doc b w).
Proof. unfold created_doc. destruct (schedule_of b w). apply inserted_is_event. Qed.

Lemma events_stay_events_witness :
  exists docs',
    db (snd (updateEvent (by_path "64f5a6c1e987654321fedcb0" rename) launched))
      = Some docs' /\
    Forall is_event docs'.
Proof.
  apply (events_stay_events clock_le updateEvent
           (by_path "64f5a6c1e987654321fedcb0" rename) launched
           [created_doc launch quiet]).
  - apply in_handlers.
  - reflexivity.
  - constructor; [apply created_doc_is_event | constructor].
Defined.

(** ** Requests in sequence *)


Lemma delete_first_found (key : string) (before after : list doc) (d : doc) :
  existsb (has_id key) before = false -> has_id key d = true ->
  delete_first key (before ++ d :: after) = (1%nat, before ++ after).
Proof.
  intros Hb Hd. induction before as [|x rest IH]; simpl.
  - now rewrite Hd.
  - simpl in Hb. destruct (has_id key x); [discriminate|].
    now rewrite (IH Hb).
Qed.

Lemma existsb_app_false {A} (f : A -> bool) (l k : list A) :
  existsb f l = false -> existsb f k = false -> existsb f (l ++ k) = false.
Proof. intros Hl Hk. now rewrite existsb_app, Hl, Hk. Qed.

(** A lookup on a connected and available store. *)
Lemma getEventById_served (req : request) (w : world) (id : string)
    (docs : list doc) :
  query req !! "id" = Some id -> ObjectId_isValid id = true ->
  db w = Some docs -> outage w = None ->
  getEventById req w =
    (match List.find (has_id (new_ObjectId id)) docs with
     | Some e => Response 200 (Envelope true None (Some (EventData e)) None None)
     | None => failure 404 "Event not found"
     end,
     with_db docs (with_call (FindOne (new_ObjectId id)) w)).
Proof.
  intros Hq Hok Hdb Hout. run_handler.
  rewrite Hq, (valid_key_nonempty id Hok). simpl. rewrite Hok. simpl.
  rewrite (getDB_connected w docs Hdb).
  unfold findOne. store_step docs Hdb Hout. simpl.
  now destruct (List.find (has_id (new_ObjectId id)) docs).
Qed.

(** A deletion on a connected and available store. *)
Lemma deleteEvent_served (req : request) (w : world) (id : string)
    (docs : list doc) :
  params req !! "id" = Some id -> ObjectId_isValid id = true ->
  db w = Some docs -> outage w = None ->
  deleteEvent req w =
    (if (fst (delete_first (new_ObjectId id) docs) =? 0)%nat
     then failure 404 "Event not found"
     else Response 200
            (Envelope true (Some "Event deleted successfully") None None None),
     with_db (snd (delete_first (new_ObjectId id) docs))
       (with_call (DeleteOne (new_ObjectId id)) w)).
Proof.
  intros Hp Hok Hdb Hout. run_handler.
  rewrite Hp, (valid_key_nonempty id Hok). simpl. rewrite Hok. simpl.
  rewrite (getDB_connected w docs Hdb).
  unfold deleteOne. store_step docs Hdb Hout.
  destruct (delete_first (new_ObjectId id) docs) as [n docs']. simpl.
  now destruct (n =? 0)%nat.
Qed.

(** X10.  Deleting the one stored document of a well-formed identifier, on
    a connected and available store, answers 200 and removes that document
    and no other; after it, Get-by-identifier and a second Delete with the
    same identifier answer 404 and the collection stays as it is. *)
Theorem delete_then_gone (del get : request) (w : world) (id : string)
    (before after : list doc) (d : doc) :
  params del !! "id" = Some id -> query get !! "id" = Some id ->
  ObjectId_isValid id = true ->
  db w = Some (before ++ d :: after) -> outage w = None ->
  existsb (has_id (new_ObjectId id)) before = false ->
  has_id (new_ObjectId id) d = true ->
  existsb (has_id (new_ObjectId id)) after = false ->
  fst (deleteEvent del w)
    = Response 200
        (Envelope true (Some "Event deleted successfully") None None None) /\
  db (snd (deleteEvent del w)) = Some (before ++ after) /\
  fst (getEventById get (snd (deleteEvent del w))) = failure 404 "Event not found" /\
  fst (deleteEvent del (snd (deleteEvent del w))) = failure 404 "Event not found" /\
  db (snd (deleteEvent del (snd (deleteEvent del w)))) = Some (before ++ after).
Proof.
  intros Hp Hq Hok Hdb Hout Hb Hd Ha.
  rewrite (deleteEvent_served del w id _ Hp Hok Hdb Hout).
  rewrite (delete_first_found _ _ _ _ Hb Hd). cbn [fst snd Nat.eqb].
  pose proof (existsb_app_false _ _ _ Hb Ha) as Hgone.
  split; [reflexivity|]. split; [reflexivity|]. split.
  - match goal with
    | |- context [getEventById get ?w1] =>
        rewrite (getEventById_served get w1 id (before ++ after) Hq Hok eq_refl Hout)
    end.
    now rewrite (find_absent _ _ Hgone).
  - match goal with
    | |- context [deleteEvent del ?w1] =>
        rewrite (deleteEvent_served del w1 id (before ++ after) Hp Hok eq_refl Hout)
    end.
    rewrite (delete_first_absent _ _ Hgone). split; reflexivity.
Qed.

Lemma delete_then_gone_witness :
  db (snd (deleteEvent (by_path "64f5a6c1e987654321fedc0b" ∅) stocked))
    = Some ([shelf_a] ++ [shelf_c]) /\
  fst (getEventById (by_query "64f5a6c1e987654321fedc0b")
         (snd (deleteEvent (by_path "64f5a6c1e987654321fedc0b" ∅) stocked)))
    = failure 404 "Event not found".
Proof.
  pose proof (delete_then_gone (by_path "64f5a6c1e987654321fedc0b" ∅)
                (by_query "64f5a6c1e987654321fedc0b") stocked
                "64f5a6c1e987654321fedc0b" [shelf_a] [shelf_c] shelf_b
                eq_refl eq_refl eq_refl eq_refl eq_refl eq_refl eq_refl eq_refl)
    as (_ & Hdb & Hget & _).
  split; [exact Hdb | exact Hget].
Defined.






(** ** The pages of the listing *)

Lemma page_request_numbers (L : Z) (P : nat) :
  Z.abs L <= MAX_SAFE_INTEGER -> Z.of_nat P <= MAX_SAFE_INTEGER ->
  limitNum_of (page_request L P) = Int L /\
  pageNum_of (page_request L P) = Int (Z.of_nat P).
Proof. intros HL HP. apply paging_numerals; [exact HL | lia | reflexivity | reflexivity]. Qed.

(** Consecutive slices of a list make up its front. *)
Lemma chunks {A} (l : list A) (n k : nat) :
  concat (map (fun i => take n (drop ((i - 1) * n) l)) (seq 1 k)) = take (k * n) l.
Proof.
  induction k as [|k IH]; [reflexivity|].
  rewrite seq_S, map_app, concat_app, IH. simpl.
  rewrite app_nil_r, Nat.sub_0_r, take_take_drop.
  f_equal. lia.
Qed.

(** X13.  On a connected and available store that holds N documents, the
    pages 1 to totalPages of a listing with limit L >= 1, L and N within
    2^53 - 1, make up, one after the other, the whole collection in
    schedule-descending order: a rearrangement of the collection, so that
    every document is on exactly one page, in which, when the store sorts
    by a total preorder, the schedule of each document is at least that of
    every document after it. *)
Theorem pages_cover (schedule_le : option value -> option value -> bool)
    (w : world) (docs : list doc) (L : Z) :
  db w = Some docs -> outage w = None ->
  1 <= L <= MAX_SAFE_INTEGER -> Z.of_nat (length docs) <= MAX_SAFE_INTEGER ->
  total_preorder schedule_le ->
  let pages :=
    concat
      (map (fun P => listed (fst (getLatestEvents schedule_le (page_request L P) w)))
         (seq 1 (Z.to_nat (- ((- Z.of_nat (length docs)) / L))))) in
  pages ≡ₚ docs /\ descending schedule_le pages.
Proof.
  intros Hdb Hout [HL HLb] HN Hord pages.
  pose proof (ceil_div_bounds (Z.of_nat (length docs)) L HL) as [Hlow Hup].
  assert (Hpages : pages = merge_sort (schedule_desc schedule_le) docs).
  { unfold pages.
    rewrite (map_ext_in _
               (fun i => take (Z.to_nat L)
                           (drop ((i - 1) * Z.to_nat L)
                              (merge_sort (schedule_desc schedule_le) docs)))).
    - rewrite chunks. apply take_ge.
      rewrite (Permutation_length (merge_sort_Permutation _ docs)). nia.
    - intros P HP. apply in_seq in HP.
      assert (HPb : Z.of_nat P <= MAX_SAFE_INTEGER) by nia.
      destruct (page_request_numbers L P ltac:(lia) HPb) as [HLn HPn].
      rewrite (proj1 (getLatestEvents_served schedule_le _ w docs L (Z.of_nat P)
                        Hdb Hout HLn HL HPn ltac:(lia))).
      unfold listed. cbn [data json_of]. f_equal. f_equal. nia. }
  rewrite Hpages. split; [apply merge_sort_Permutation | now apply sorted_descending].
Qed.

Lemma pages_cover_witness :
  concat (map (fun P => listed (fst (getLatestEvents clock_le (page_request 2 P) stocked)))
            (seq 1 (Z.to_nat (- ((- Z.of_nat (length shelf)) / 2)))))
    ≡ₚ shelf /\
  descending clock_le
    (concat (map (fun P => listed (fst (getLatestEvents clock_le (page_request 2 P) stocked)))
               (seq 1 (Z.to_nat (- ((- Z.of_nat (length shelf)) / 2)))))).
Proof.
  apply (pages_cover clock_le stocked shelf 2);
    [reflexivity | reflexivity | split; [lia | vm_compute; discriminate]
    | vm_compute; discriminate | exact clock_le_order].
Defined.

(** The pages of two documents of [shelf], one after the other. *)
Example pages_of_shelf :
  concat (map (fun P => listed (fst (getLatestEvents clock_le (page_request 2 P) stocked)))
            (seq 1 2))
    = [shelf_b; shelf_c; shelf_a].
Proof. vm_compute. reflexivity. Qed.



Lemma paging_accepted_witness :
  status (fst (getLatestEvents clock_le (listing "5abc" "1") down)) = 200%nat \/
  status (fst (getLatestEvents clock_le (listing "5abc" "1") down)) = 500%nat.
Proof.
  apply (paging_accepted clock_le (listing "5abc" "1") down 5 1);
    [reflexivity | lia | reflexivity | lia].
Defined.

(** ** The route of GET /events *)

(** X15.  The route of GET /events pays no attention to the [type]
    parameter: setting it to any value, or leaving it out, gives the same
    response and the same world. *)
Theorem type_selector_ignored (schedule_le : option value -> option value -> bool)
    (req : request) (t : option string) (w : world) :
  get_events schedule_le
    (Request (partial_alter (fun _ => t) "type" (query req)) (params req)
       (req_body req))
    w
  = get_events schedule_le req w.
Proof.
  unfold get_events, getEventById, getLatestEvents. cbn [query params req_body].
  rewrite !lookup_partial_alter_ne by discriminate. reflexivity.
Qed.

(** X16.  Through the route of GET /events, no request is answered with
    "Event ID is required": an absent or empty [id] goes to the listing,
    so that guard of the lookup is never taken. *)
Theorem route_never_requires_id (schedule_le : option value -> option value -> bool)
    (req : request) (w : world) :
  message (json_of (fst (get_events schedule_le req w)))
    <> Some "Event ID is required".
Proof.
  unfold get_events. destruct (missing (query req !! "id")) eqn:Hm; cbn [negb].
  - hide_goal (getLatestEvents schedule_le req w). crack; show_goal; discriminate.
  - hide_goal (getEventById req w). crack; show_goal; discriminate.
Qed.

(** ** config/db.js: the life of the connection *)

(** Connecting the sample process gives the connected one. *)
Example connect_office : connectDB office = Running open_office.
Proof. reflexivity. Qed.

(** X17.  [connectDB] never returns without a handle: either it returns
    and [getDB] then succeeds, or the process exits with code 1. *)
Theorem connectDB_postcondition (p : process) :
  (exists p', connectDB p = Running p' /\ getDB (node p') = (Return tt, node p')) \/
  (exists lines, connectDB p = Exited 1 lines).
Proof.
  unfold connectDB. destruct (db (node p)) as [docs|] eqn:Hdb.
  - left. exists p. split; [reflexivity | apply (getDB_connected _ docs Hdb)].
  - destruct (refusal p _) as [msg|].
    + right. eexists. reflexivity.
    + left. eexists. split; [reflexivity|]. reflexivity.
Qed.

(** X18.  The connection is made once: after [connectDB] has returned,
    calling it again returns the same process, with no new client, no new
    handle and nothing printed. *)
Theorem connectDB_singleton (p p' : process) :
  connectDB p = Running p' -> connectDB p' = Running p'.
Proof.
  unfold connectDB at 1. destruct (db (node p)) as [docs|] eqn:Hdb.
  - intros [= <-]. unfold connectDB. now rewrite Hdb.
  - destruct (refusal p _); [discriminate|]. intros [= <-]. reflexivity.
Qed.

Lemma connectDB_singleton_witness : connectDB open_office = Running open_office.
Proof. exact (connectDB_singleton office open_office eq_refl). Defined.

(** X19.  Closing is done once: after [closeDB] has returned, calling it
    again returns at once and changes nothing. *)
Theorem closeDB_idempotent (p p1 : process) :
  closeDB p = (Return tt, p1) -> closeDB p1 = (Return tt, p1).
Proof.
  unfold closeDB at 1. destruct (client p) eqn:Hc.
  - destruct (close_failure p); [discriminate|]. intros [= <-]. reflexivity.
  - intros [= <-]. unfold closeDB. now rewrite Hc.
Qed.

Lemma closeDB_idempotent_witness :
  closeDB (snd (closeDB open_office)) = (Return tt, snd (closeDB open_office)).
Proof.
  exact (closeDB_idempotent open_office (snd (closeDB open_office)) eq_refl).
Defined.



(** After [closeDB], a lookup is answered with the error of [getDB], and
    an Update without a body with the TypeError. *)
Example closed_office :
  fst (getEventById (by_query "64f5a6c1e987654321fedc0a")
         (node (snd (closeDB open_office))))
    = internal_error "Database not initialized. Call connectDB() first." /\
  fst (updateEvent (bare_put "64f5a6c1e987654321fedc0a")
         (node (snd (closeDB open_office))))
    = internal_error keys_of_undefined.
Proof. split; reflexivity. Qed.

(** ** The status codes of each handler *)

(** X23.  The status codes each handler can answer with: the lookup, the
    update and the deletion 200, 400, 404 or 500; the listing 200, 400 or
    500, never 404; the creation 201, 400 or 500, and it is the only one to
    answer 201. *)
Theorem status_codes (schedule_le : option value -> option value -> bool)
    (req : request) (w : world) :
  status (fst (getEventById req w)) ∈ [200; 400; 404; 500]%nat /\
  status (fst (getLatestEvents schedule_le req w)) ∈ [200; 400; 500]%nat /\
  status (fst (createEvent req w)) ∈ [201; 400; 500]%nat /\
  status (fst (updateEvent req w)) ∈ [200; 400; 404; 500]%nat /\
  status (fst (deleteEvent req w)) ∈ [200; 400; 404; 500]%nat.
Proof.
  repeat split;
    match goal with |- status (fst ?run) ∈ _ => hide_goal run end;
    crack; show_goal; solve [repeat constructor].
Qed.
